(** * magsdk/runner: task generators and CSS aggregation

    A shallow embedding of [css.js] (the CSS tasks generator and its
    [build] action) and of the two package generators that populate the
    task registry of the external [runner] package, together with the
    properties stated about them.

    Strings are byte strings; a JavaScript object used as a dictionary is
    a [gmap] keyed by strings, and an object whose key order is observed
    (the dependency tables of package.json) is an association list in
    insertion order. *)

From Stdlib Require Import String Ascii ZArith NArith List Lia Permutation.
From stdpp Require Import base gmap strings list fin_maps pretty.

Set Warnings "-register-all,-clear-no-such-hyp".
Local Open Scope Z_scope.

(** ** JavaScript values and string helpers *)

Module JS.

(** The values a build variable can hold. Numbers are integers: the
    sources only ever store the port number. *)
Inductive value :=
| Undefined
| Null
| Bool (b : bool)
| Number (n : Z)
| Str (s : string)
| Obj (fields : list (string * value)).


(** ToBoolean *)
Definition truthy (v : value) : bool :=
  match v with
  | Undefined | Null => false
  | Bool b => b
  | Number n => negb (n =? 0)
  | Str s => negb (String.eqb s EmptyString)
  | Obj _ => true
  end.

(** Property read on a dictionary object: a missing key reads as
    [undefined]. *)
Definition get (o : gmap string value) (k : string) : value :=
  default Undefined (o !! k).

(** The line feed, ['\n']. *)
Definition LF : string := String (ascii_of_nat 10) EmptyString.

(** The double quote. *)
Definition quote : string := String (ascii_of_nat 34) EmptyString.

(** [String.prototype.indexOf]: position of the first occurrence, [-1]
    when there is none. *)
Definition indexOf (s sub : string) : Z :=
  match String.index 0 sub s with
  | Some n => Z.of_nat n
  | None => -1
  end.

(** [String.prototype.toLowerCase] on the ASCII letters; other bytes are
    kept. *)
Definition lower_ascii (c : ascii) : ascii :=
  let n := nat_of_ascii c in
  if ((65 <=? n) && (n <=? 90))%nat then ascii_of_nat (n + 32) else c.

Fixpoint toLowerCase (s : string) : string :=
  match s with
  | EmptyString => EmptyString
  | String c s' => String (lower_ascii c) (toLowerCase s')
  end.

(** [Array.prototype.join] on an array that may have holes: a hole (or
    [undefined]) contributes the empty string. *)
Definition join (sep : string) (l : list (option string)) : string :=
  String.concat sep (map (default EmptyString) l).

(** [a[i] = x] on a JavaScript array: an index past the end extends the
    array, leaving holes in between. *)
Definition array_set {A} (i : nat) (x : A) (l : list (option A)) : list (option A) :=
  if (i <? length l)%nat then <[i := Some x]> l
  else l ++ replicate (i - length l) None ++ [Some x].

(** *** Own-key enumeration

    [Object.keys] lists array-index keys first, in ascending numeric
    order, and then the remaining string keys in insertion order. An
    array index is a canonical decimal numeral below [2^32 - 1]. *)

Definition is_digit (c : ascii) : bool :=
  let n := nat_of_ascii c in ((48 <=? n) && (n <=? 57))%nat.

Fixpoint all_digits (s : string) : bool :=
  match s with
  | EmptyString => true
  | String c s' => is_digit c && all_digits s'
  end.

Fixpoint digits_value (acc : N) (s : string) : N :=
  match s with
  | EmptyString => acc
  | String c s' => digits_value (acc * 10 + N.of_nat (nat_of_ascii c - 48))%N s'
  end.

Definition array_index (s : string) : option N :=
  match s with
  | EmptyString => None
  | String c rest =>
      if all_digits s
         && (negb (Ascii.eqb c "0") || String.eqb rest EmptyString)
         && (digits_value 0 s <? 4294967295)%N
      then Some (digits_value 0 s) else None
  end.

Fixpoint insert_index (x : N * string) (l : list (N * string)) : list (N * string) :=
  match l with
  | [] => [x]
  | y :: l' => if (x.1 <? y.1)%N then x :: y :: l' else y :: insert_index x l'
  end.

Definition sort_index (l : list (N * string)) : list (N * string) :=
  foldr insert_index [] l.

Definition index_keys (ks : list string) : list (N * string) :=
  omap (fun k => (fun n => (n, k)) <$> array_index k) ks.

Definition ordered_keys (ks : list string) : list string :=
  (sort_index (index_keys ks)).*2
  ++ filter (fun k => array_index k = None) ks.

(** [Object.keys o] for an object given by its properties in insertion
    order. *)
Definition Object_keys {V} (o : list (string * V)) : list string :=
  ordered_keys o.*1.

End JS.

(** ** Paths (POSIX flavour of Node's [path] module) *)

Module Path.

Fixpoint split_aux (acc : string) (s : string) : list string :=
  match s with
  | EmptyString => [acc]
  | String c s' =>
      if Ascii.eqb c "/" then acc :: split_aux EmptyString s'
      else split_aux (acc +:+ String c EmptyString) s'
  end.

(** [s.split('/')] *)
Definition split (s : string) : list string := split_aux EmptyString s.

(** One step of [normalizeString]: [stack] holds the segments kept so
    far, innermost first. *)
Definition push_segment (allowAbove : bool) (stack : list string) (seg : string)
  : list string :=
  if String.eqb seg EmptyString || String.eqb seg "." then stack
  else if String.eqb seg ".." then
    match stack with
    | top :: below =>
        if String.eqb top ".." then seg :: stack else below
    | [] => if allowAbove then [seg] else []
    end
  else seg :: stack.

Definition starts_with_slash (s : string) : bool :=
  match s with String c _ => Ascii.eqb c "/" | EmptyString => false end.

Fixpoint ends_with_slash (s : string) : bool :=
  match s with
  | EmptyString => false
  | String c EmptyString => Ascii.eqb c "/"
  | String _ s' => ends_with_slash s'
  end.

(** [path.normalize] *)
Definition normalize (p : string) : string :=
  if String.eqb p EmptyString then "."
  else
    let isAbsolute := starts_with_slash p in
    let trailing := ends_with_slash p in
    let body :=
      String.concat "/" (rev (foldl (push_segment (negb isAbsolute)) [] (split p))) in
    let body :=
      if String.eqb body EmptyString then (if isAbsolute then EmptyString else ".")
      else body in
    let body :=
      if trailing && negb (String.eqb body EmptyString && isAbsolute)
      then body +:+ "/" else body in
    if isAbsolute then "/" +:+ body else body.

(** [path.join]: the non-empty arguments joined by a slash, normalized;
    ['.'] when nothing is left. *)
Definition join (segs : list string) : string :=
  match filter (fun s => s ≠ EmptyString) segs with
  | [] => "."
  | parts => normalize (String.concat "/" parts)
  end.

Fixpoint drop_trailing_slash (s : string) : string :=
  match s with
  | EmptyString => EmptyString
  | String c EmptyString => if Ascii.eqb c "/" then EmptyString else s
  | String c s' => String c (drop_trailing_slash s')
  end.

(** [path.resolve p] for a relative or absolute [p], from the working
    directory [cwd] (an absolute path): normalized, and without a
    trailing slash unless it is the root. *)
Definition resolve (cwd p : string) : string :=
  let full := if starts_with_slash p then p else cwd +:+ "/" +:+ p in
  let r := normalize full in
  if String.eqb r "/" then r else drop_trailing_slash r.



End Path.

(** ** Asynchronous fan-out *)

Module Async.

(** What an asynchronous operation hands to its callback: an error or a
    result. *)
Definition outcome (A : Type) : Type := (string + A)%type.

(** One invocation of the final callback: [callback(error)] or
    [callback(null, results)]. *)
Inductive call (A : Type) :=
| CallError (error : string)
| CallResults (results : list (option A)).
Arguments CallError {A} error.
Arguments CallResults {A} results.

Record state (A : Type) := State {
  isError : bool;
  counter : nat;
  outList : list (option A);
  calls : list (call A)
}.
Arguments State {A}.
Arguments isError {A}.
Arguments counter {A}.
Arguments outList {A}.
Arguments calls {A}.

Definition init {A} : state A := State false 0%nat [] [].

(** Task number [i] of [n] completes with outcome [r]. *)
Definition complete {A} (n : nat) (st : state A) (i : nat) (r : outcome A) : state A :=
  match r with
  | inl e =>
      State true (counter st) (outList st)
            (if isError st then calls st else calls st ++ [CallError e])
  | inr a =>
      let out := JS.array_set i a (outList st) in
      let c := S (counter st) in
      State (isError st) c out
            (if (n <=? c)%nat && negb (isError st)
             then calls st ++ [CallResults out] else calls st)
  end.

(** Task number [i] completes, with the outcome listed for it. *)
Definition settle {A} (outcomes : list (outcome A)) (st : state A) (i : nat) : state A :=
  match outcomes !! i with
  | Some r => complete (length outcomes) st i r
  | None => st
  end.

(** The tasks complete in the order given. *)
Definition drain {A} (outcomes : list (outcome A)) (order : list nat) : state A :=
  foldl (settle outcomes) init order.

(** Modelled from the spec: [async.parallel] of the external package
    cjs-async, whose source is not part of this repository. All tasks are
    started at once; the final callback gets the first error reported, or,
    once every task has completed, the results in task order.
    [outcomes] lists what each task reports and [order] the task numbers
    in the order the tasks complete. *)
Definition parallel {A} (outcomes : list (outcome A)) (order : list nat) : list (call A) :=
  match outcomes with
  | [] => [CallResults []]
  | _ => calls (drain outcomes order)
  end.

(** The final callback was handed results. *)
Definition is_results {A} (c : call A) : bool :=
  match c with CallResults _ => true | CallError _ => false end.

(** The outcome is a result. *)
Definition succeeded {A} (r : outcome A) : bool :=
  match r with inr _ => true | inl _ => false end.

(** Task number [i] exists and reports a result. *)
Definition reports_result {A} (outcomes : list (outcome A)) (i : nat) : Prop :=
  succeeded <$> outcomes !! i = Some true.

#[global] Instance reports_result_dec {A} (outcomes : list (outcome A)) (i : nat) :
  Decision (reports_result outcomes i).
Proof. unfold reports_result. apply _. Defined.

(** A completion order for [n] tasks: every task completes once. *)
Definition schedule (n : nat) (order : list nat) : Prop :=
  Permutation order (seq 0 n).

End Async.

(** ** css.js: the build and clear actions *)

Module Css.

(** The [config] argument of the CSS tasks. *)
Record config := Config {
  resolution : string;
  outFile : string;
  mode : string
}.

(** package.json as far as [build] looks at it: the two dependency
    tables, each absent or an object listing name and version range in
    the order of the file. *)
Record package := Package {
  dependencies : option (list (string * string));
  devDependencies : option (list (string * string))
}.

(** The environment of one [build] or [clear] call. *)
Record world := World {
  package_json : option package;
  readFile : string -> Async.outcome string;
  write : list (string * string) -> option string;
  unlink : list string -> option string;
  completion : list nat
}.

(** What a call does, in order. *)
Inductive event :=
| Throw (what : string)
| ReadFile (path : string)
| WriteFile (name data : string)
| Unlink (name : string)
| Done (error : option string).

(** [moduleName.indexOf('-component-') !== -1] *)
Definition is_component (moduleName : string) : bool :=
  negb (JS.indexOf moduleName "-component-" =? -1).

(** [Object.keys(packageData.dependencies || {})
       .concat(Object.keys(packageData.devDependencies || {}))] *)
Definition declared (p : package) : list string :=
  JS.Object_keys (default [] (dependencies p))
  ++ JS.Object_keys (default [] (devDependencies p)).

(** The names of the two dependency tables in the order package.json
    declares them: those of [dependencies], then those of
    [devDependencies]. *)
Definition listed (p : package) : list string :=
  (default [] (dependencies p)).*1 ++ (default [] (devDependencies p)).*1.

(** The [modules] array once the [forEach] has run. *)
Definition modules (p : package) : list string :=
  "mag-app" :: filter (fun m => is_component m = true) (declared p).

(** The file read for a module. *)
Definition css_path (c : config) (moduleName : string) : string :=
  Path.join ["node_modules"; moduleName; "css";
             mode c +:+ "." +:+ resolution c +:+ ".css"].

(** Modelled from the spec: [tools.write] of the external package
    runner-tools: the files are written and the outcome goes to the
    callback. *)
Definition tools_write (w : world) (files : list (string * string)) : list event :=
  map (fun f => WriteFile f.1 f.2) files ++ [Done (write w files)].


(** The final callback of [async.parallel] inside [build]. *)
Definition on_results (w : world) (c : config) (cb : Async.call string) : list event :=
  match cb with
  | Async.CallError _ => []
  | Async.CallResults results =>
      tools_write w [(outFile c, JS.join JS.LF results)]
  end.

(** [build(config, done)] *)
Definition build (w : world) (c : config) : list event :=
  match package_json w with
  | None => [Throw "MODULE_NOT_FOUND"]
  | Some p =>
      let paths := map (css_path c) (modules p) in
      map ReadFile paths
      ++ flat_map (on_results w c)
           (Async.parallel (map (readFile w) paths) (completion w))
  end.


(** The [options] of the tasks generator: the name prefix and suffix. *)
Record options := Options {
  prefix : string;
  suffix : string
}.

(** An [options] argument as a caller writes it: each key present or
    left out. *)
Record options_arg := OptionsArg {
  arg_prefix : option string;
  arg_suffix : option string
}.

(** [generator.options] when the module is loaded. *)
Definition defaults : options := Options "css:" EmptyString.

(** [Object.assign(target, source)] on option objects: the keys the
    source has replace those of the target. *)
Definition assign (target : options) (source : options_arg) : options :=
  Options (default (prefix target) (arg_prefix source))
          (default (suffix target) (arg_suffix source)).

#[global] Instance event_eq_dec : EqDecision event.
Proof. solve_decision. Defined.

(** A file system holding the files listed; reading any other path fails
    with ENOENT. *)
Definition files (l : list (string * string)) (path : string) : Async.outcome string :=
  match list_find (fun f => f.1 = path) l with
  | Some (_, f) => inr f.2
  | None => inl "ENOENT"
  end.

Definition is_write (e : event) : bool :=
  match e with WriteFile _ _ => true | _ => false end.

Definition is_done (e : event) : bool :=
  match e with Done _ => true | _ => false end.

Definition is_read (e : event) : bool :=
  match e with ReadFile _ => true | _ => false end.

End Css.

(** ** The task registry of the external [runner] package *)

Module Runner.

(** The function literals the generators register, each with the
    variables it closes over; [External] stands for a function supplied
    by one of the external generator packages. *)
Inductive body :=
| CssConfig (c : Css.config)
| CssBuild (c : Css.config)
| CssClear (c : Css.config)
| Init (target : string) (prepare : bool)
| Copy (source target : string)
| GettextPrepare (file : string)
| Watch (source : string) (onPackage : list string)
| External (generator name : string).

(** A task: a function, or a composition of tasks that are given by
    name or in place. *)
Inductive node :=
| Ref (name : string)
| Fn (b : body)
| Parallel (members : list node)
| Serial (steps : list node).

(** Modelled from the spec: [runner.task(id, body)] of the external
    [runner] package registers the task in the registry, keyed by its
    name; a task already under that name is replaced. *)
Definition task (id : string) (n : node) (tasks : gmap string node) : gmap string node :=
  <[id := n]> tasks.

(** [Object.assign(runner.tasks, source1, source2, ...)]: the sources are
    copied over the registry one after the other. *)
Definition assign (tasks : gmap string node) (sources : list (gmap string node))
  : gmap string node :=
  foldl (fun t s => s ∪ t) tasks sources.

(** How a task ends: it reports success, it reports a failure, or its
    completion callback is never invoked. *)
Inductive result := Ok | Failed | Pending.

(** The steps of a sequence, one at a time, up to the first one that
    does not succeed. *)
Fixpoint run_serial (run : node -> option (list body * result)) (steps : list node)
  : option (list body * result) :=
  match steps with
  | [] => Some ([], Ok)
  | s :: rest =>
      match run s with
      | None => None
      | Some (started, Ok) =>
          match run_serial run rest with
          | None => None
          | Some (started', r) => Some (started ++ started', r)
          end
      | Some (started, r) => Some (started, r)
      end
  end.

(** The outcome of a concurrent set: a failure if any member fails,
    else pending if some member never completes. *)
Definition both (r1 r2 : result) : result :=
  match r1, r2 with
  | Failed, _ | _, Failed => Failed
  | Pending, _ | _, Pending => Pending
  | Ok, Ok => Ok
  end.

(** All members are started; none is cancelled. *)
Fixpoint run_parallel (run : node -> option (list body * result)) (members : list node)
  : option (list body * result) :=
  match members with
  | [] => Some ([], Ok)
  | m :: rest =>
      match run m, run_parallel run rest with
      | Some (started, r), Some (started', r') => Some (started ++ started', both r r')
      | _, _ => None
      end
  end.

(** Modelled from the spec: the execution of a task by the external
    [runner] package, whose source is not part of this repository.
    "Serial" runs the referenced tasks one at a time, propagating the
    first failure and aborting the remaining steps; "parallel" runs them
    concurrently and waits for all to complete or for the first failure,
    without cancelling the others. Names are resolved in the registry at
    run time; a name with no task counts as a failed step. [finish]
    tells how each function ends. The result lists the functions that
    get started, grouped by member (the order between the members of a
    concurrent set carries no meaning), and how the task ends. [None]
    when [fuel] nested lookups do not suffice. *)
Fixpoint run (fuel : nat) (tasks : gmap string node) (finish : body -> result)
  (n : node) : option (list body * result) :=
  match fuel with
  | O => None
  | S fuel' =>
      match n with
      | Fn b => Some ([b], finish b)
      | Ref name =>
          match tasks !! name with
          | Some n' => run fuel' tasks finish n'
          | None => Some ([], Failed)
          end
      | Serial steps => run_serial (run fuel' tasks finish) steps
      | Parallel members => run_parallel (run fuel' tasks finish) members
      end
  end.

End Runner.

(** ** css.js: the tasks generator *)

Module CssTasks.

(** The process-wide state the generators act on: [runner.tasks] and the
    [generator.options] object of css.js. *)
Record state := State {
  tasks : gmap string Runner.node;
  generator_options : Css.options
}.

(** The state when the modules have just been loaded. *)
Definition initial : state := State ∅ Css.defaults.

(** The three names one call registers. *)
Definition task_names (o : Css.options) : list string :=
  [Css.prefix o +:+ "config" +:+ Css.suffix o;
   Css.prefix o +:+ "build" +:+ Css.suffix o;
   Css.prefix o +:+ "clear" +:+ Css.suffix o].

(** [generator(config, options)]; [None] for a call without the second
    argument. *)
Definition generator (config : Css.config) (options : option Css.options_arg)
  (st : state) : state :=
  let options :=
    Css.assign (generator_options st) (default (Css.OptionsArg None None) options) in
  let t1 := Runner.task (Css.prefix options +:+ "config" +:+ Css.suffix options)
                        (Runner.Fn (Runner.CssConfig config)) (tasks st) in
  let t2 := Runner.task (Css.prefix options +:+ "build" +:+ Css.suffix options)
                        (Runner.Fn (Runner.CssBuild config)) t1 in
  let t3 := Runner.task (Css.prefix options +:+ "clear" +:+ Css.suffix options)
                        (Runner.Fn (Runner.CssClear config)) t2 in
  State t3 options.

End CssTasks.

(** ** The package generators *)

Module Package.

(** The [config] argument of a package generator. *)
Record config := Config {
  type : option string;
  vars : gmap string JS.value
}.

(** The process environment: the working directory and the contents of
    its package.json, [None] when [require] cannot load the file (it is
    missing or is not JSON) and throws. *)
Record env := Env {
  cwd : string;
  package_data : option JS.value
}.

(** What the generators put in a webpack plugin list. *)
Inductive plugin :=
| DefinePlugin (constants : gmap string JS.value)
| OccurrenceOrderPlugin
| NormalModuleReplacementPlugin (newResource : string)
| Inherited (name : string).

Record webpack_config := WebpackConfig {
  wp_mode : string;
  wp_devtool : option string;
  wp_entry : string;
  wp_output : string;
  wp_alias : list (string * string);
  wp_plugins : list plugin;
  wp_minimizer_sourceMap : option bool
}.

Record gettext_config := GettextConfig {
  gt_languages : list string;
  gt_source : string;
  gt_target : string;
  gt_jsData : list string
}.

Record pug_config := PugConfig {
  pug_source : string;
  pug_target : string;
  pug_pretty : bool;
  pug_variables : gmap string JS.value
}.

Record sass_config := SassConfig {
  sass_file : string;
  sass_outFile : string;
  sass_outputStyle : string;
  sass_sourceMap : string
}.

(** The external generator packages (runner-generator-notify and the
    rest): each maps its arguments to the tasks it contributes. *)
Record generators := Generators {
  notify : gmap string Runner.node;
  repl : gmap string Runner.node;
  eslint : list string -> gmap string Runner.node;
  gettext : gettext_config -> gmap string Runner.node;
  static : string -> gmap string Runner.node;
  livereload : list string -> gmap string Runner.node;
  pug : pug_config -> gmap string Runner.node;
  webpack : webpack_config -> gmap string Runner.node;
  npm : string -> gmap string Runner.node;
  sass : sass_config -> string -> gmap string Runner.node
}.

Definition resolutions : list string := ["480"; "576"; "720"; "1080"].

Definition source : string := "src".

(** [path.join('build', config.vars.TARGET
               || (config.vars.PLATFORM || 'TARGET').toLowerCase())];
    [None] when the expression throws a TypeError (a truthy value that is
    not a string). *)
Definition target_dir (vars : gmap string JS.value) : option string :=
  let TARGET := JS.get vars "TARGET" in
  if JS.truthy TARGET then
    match TARGET with
    | JS.Str t => Some (Path.join ["build"; t])
    | _ => None
    end
  else
    let PLATFORM := JS.get vars "PLATFORM" in
    if JS.truthy PLATFORM then
      match PLATFORM with
      | JS.Str p => Some (Path.join ["build"; JS.toLowerCase p])
      | _ => None
      end
    else Some (Path.join ["build"; JS.toLowerCase "TARGET"]).

(** [config.vars.PLATFORM ? config.vars.PLATFORM.toLowerCase()
                          : config.vars.TARGET] *)
Definition platform_name (vars : gmap string JS.value) : option JS.value :=
  let PLATFORM := JS.get vars "PLATFORM" in
  if JS.truthy PLATFORM then
    match PLATFORM with
    | JS.Str p => Some (JS.Str (JS.toLowerCase p))
    | _ => None
    end
  else Some (JS.get vars "TARGET").

(** Names every object inherits from [Object.prototype]. *)
Definition inherited_names : list string :=
  ["constructor"; "toString"; "toLocaleString"; "valueOf"; "hasOwnProperty";
   "isPrototypeOf"; "propertyIsEnumerable"; "__proto__";
   "__defineGetter__"; "__defineSetter__"; "__lookupGetter__"; "__lookupSetter__"].

(** [replacePlugin[platformName]], when it is truthy. *)
Definition replacePlugin (cwd : string) (platformName : JS.value) : option plugin :=
  match platformName with
  | JS.Str name =>
      if String.eqb name "tizen" then
        Some (NormalModuleReplacementPlugin (Path.join [cwd; "/node_modules/tzn-app/index.js/"]))
      else if String.eqb name "webos" then
        Some (NormalModuleReplacementPlugin (Path.join [cwd; "/node_modules/webos-app/index.js/"]))
      else if String.eqb name "smarttv" then
        Some (NormalModuleReplacementPlugin (Path.join [cwd; "/node_modules/stv-app/index.js/"]))
      else if bool_decide (name ∈ inherited_names) then Some (Inherited name)
      else None
  | _ => None
  end.

(** [v === s] for a string literal [s] *)
Definition is_str (v : JS.value) (s : string) : bool :=
  match v with JS.Str x => String.eqb x s | _ => false end.

(** [!!(config.vars.DEVELOP && config.vars.DEVELOP === 'true')] *)
Definition develop_flag (vars : gmap string JS.value) : bool :=
  let DEVELOP := JS.get vars "DEVELOP" in
  if JS.truthy DEVELOP then is_str DEVELOP "true" else false.

(** The "sanitize and prepare" assignments. *)
Definition sanitize (vars : gmap string JS.value) : gmap string JS.value :=
  <["LIVERELOAD" := JS.Obj [("port", JS.Number 35729)]]>
    (<["DEVELOP" := JS.Bool (develop_flag vars)]> vars).

(** The body of the escaping [forEach], for one name. *)
Definition escape_one (vars : gmap string JS.value) (name : string)
  : gmap string JS.value :=
  match JS.get vars name with
  | JS.Str s => <[name := JS.Str (JS.quote +:+ s +:+ JS.quote)]> vars
  | _ => vars
  end.

(** [Object.keys(config.vars).forEach(...)]: the object is updated in
    place, name after name. *)
Definition escape (vars : gmap string JS.value) : gmap string JS.value :=
  foldl escape_one vars (map_to_list vars).*1.

(** [config.vars] once a generator has prepared it. *)
Definition prepare (vars : gmap string JS.value) : gmap string JS.value :=
  escape (sanitize vars).

(** What escaping does to one value. *)
Definition escaped (v : JS.value) : JS.value :=
  match v with
  | JS.Str s => JS.Str (JS.quote +:+ s +:+ JS.quote)
  | _ => v
  end.

(** [path.resolve] from the working directory. *)
Definition resolve (E : env) (p : string) : string := Path.resolve (cwd E) p.

Definition option_list {A} (o : option A) : list A :=
  match o with Some x => [x] | None => [] end.

(** The composite tasks both generators register under fixed names. *)
Definition sass_build : Runner.node :=
  Runner.Parallel [Runner.Ref "sass:build:480"; Runner.Ref "sass:build:576";
                   Runner.Ref "sass:build:720"; Runner.Ref "sass:build:1080"].

Definition css_build : Runner.node :=
  Runner.Parallel [Runner.Ref "css:build:480"; Runner.Ref "css:build:576";
                   Runner.Ref "css:build:720"; Runner.Ref "css:build:1080"].

Definition serve : Runner.node :=
  Runner.Parallel [Runner.Ref "static:start"; Runner.Ref "livereload:start";
                   Runner.Ref "repl:start"; Runner.Ref "notify:start"].

Definition default_task : Runner.node :=
  Runner.Serial [Runner.Ref "build";
                 Runner.Parallel [Runner.Ref "watch"; Runner.Ref "serve"]].

Definition languages : list string :=
  ["de"; "el"; "es"; "fr"; "it"; "nl"; "pl"; "ru"; "et"; "lv"; "sl"; "uk";
   "hy"; "ka"; "bg"; "tr"; "pt"].

(** The arguments both generators pass to the external generators. *)
Definition eslint_watch : list string :=
  [Path.join [source; "js"; "**"; "*.js"]; Path.join ["tasks"; "**"; "*.js"]].

Definition gettext_args (target : string) : gettext_config :=
  GettextConfig languages (Path.join [source; "lang"]) (Path.join [target; "lang"])
                [Path.join [source; "js"]].

Definition livereload_watch (target : string) : list string :=
  [Path.join [target; "**"; "*"]; "!" +:+ Path.join [target; "**"; "*.map"]].

(** [Object.assign({}, config.vars, {package: require(...)})] goes to pug
    with the variables as they are at that point, prepared; [package] is
    what [require] returned. *)
Definition pug_args (package : JS.value) (target : string)
  (vars' : gmap string JS.value) : pug_config :=
  PugConfig (Path.join [source; "pug"; "main.pug"]) (Path.join [target; "index.html"])
            true (<["package" := package]> vars').

Definition alias (E : env) : list (string * string) :=
  [("app:metrics", resolve E (Path.join [source; "js"; "metrics.js"]));
   ("app:config", resolve E (Path.join [source; "js"; "config.js"]))].

(** The body of [resolutions.forEach]: the CSS generator registers its
    tasks itself while the arguments of [Object.assign] are evaluated,
    then the tasks of the sass generator are copied over the registry. *)
Definition per_resolution (G : generators) (target : string) (develop : bool)
  (st : CssTasks.state) (resolution : string) : CssTasks.state :=
  let fromSass :=
    sass G (SassConfig
              (Path.join [source; "sass";
                          (if develop then "develop." else "release.")
                          +:+ resolution +:+ ".scss"])
              (Path.join [target; "css"; "app." +:+ resolution +:+ ".css"])
              (if develop then "nested" else "compressed")
              (Path.join [target; "css"; "app." +:+ resolution +:+ ".map"]))
           (":" +:+ resolution) in
  let st' :=
    CssTasks.generator
      (Css.Config resolution
                  (Path.join [target; "css"; "sdk." +:+ resolution +:+ ".css"])
                  (if develop then "develop" else "release"))
      (Some (Css.OptionsArg None (Some (":" +:+ resolution)))) st in
  CssTasks.State (Runner.assign (CssTasks.tasks st') [fromSass])
                 (CssTasks.generator_options st').

End Package.

(** *** The generator of src/unnamed/part_000 *)

Module PackageGenerator.
Import Package.

(** [webpackConfig] as the webpack generator receives it. The
    [DefinePlugin] holds [config.vars] itself, hence the prepared
    variables. *)
Definition webpackConfig (E : env) (target : string) (platformName : JS.value)
  (vars' : gmap string JS.value) (develop : bool) : webpack_config :=
  WebpackConfig
    (if develop then "development" else "production")
    (Some "source-map")
    (resolve E (Path.join [source; "js"; "main.js"]))
    (resolve E target)
    (alias E)
    ([DefinePlugin vars'; OccurrenceOrderPlugin]
     ++ option_list (replacePlugin (cwd E) platformName))
    (if develop then None else Some true).

Definition build_task : Runner.node :=
  Runner.Parallel [Runner.Ref "pug:build"; Runner.Ref "sass:build";
                   Runner.Ref "css:build"; Runner.Ref "webpack:build";
                   Runner.Ref "copy";
                   Runner.Serial [Runner.Ref "gettext:prepare";
                                  Runner.Ref "gettext:build"]].

(** The names registered under "main tasks". *)
Definition main_names : list string :=
  ["init"; "copy"; "gettext:prepare"; "sass:build"; "css:build"; "build";
   "watch"; "serve"; "default"].

(** The [runner.task] calls under "main tasks". *)
Definition main_tasks (target : string) (tasks : gmap string Runner.node)
  : gmap string Runner.node :=
  let t := Runner.task "init" (Runner.Fn (Runner.Init target true)) tasks in
  let t := Runner.task "copy"
             (Runner.Fn (Runner.Copy (Path.join [source; "img"])
                                     (Path.join [target; "img"]))) t in
  let t := Runner.task "gettext:prepare"
             (Runner.Fn (Runner.GettextPrepare (Path.join [source; "js"; "gettext.js"]))) t in
  let t := Runner.task "sass:build" sass_build t in
  let t := Runner.task "css:build" css_build t in
  let t := Runner.task "build" build_task t in
  let t := Runner.task "watch"
             (Runner.Fn (Runner.Watch source ["css:build"; "gettext:prepare"])) t in
  let t := Runner.task "serve" serve t in
  Runner.task "default" default_task t.

(** [module.exports(config)]: the state afterwards and [config.vars] as
    the call leaves it; [None] when the call throws: on a variable that
    [path.join] or [toLowerCase] cannot take, or, for an application, on
    the [require] of package.json among the arguments of pug (what the
    call has registered by then is not followed further). *)
Definition generator (G : generators) (E : env) (config : config)
  (st : CssTasks.state) : option (CssTasks.state * gmap string JS.value) :=
  target ← target_dir (vars config);
  platformName ← platform_name (vars config);
  let vars' := prepare (vars config) in
  let develop := JS.truthy (JS.get vars' "DEVELOP") in
  let tasks1 :=
    Runner.assign (CssTasks.tasks st)
      [notify G; repl G; eslint G eslint_watch; gettext G (gettext_args target);
       static G (Path.join [target]); livereload G (livereload_watch target);
       webpack G (webpackConfig E target platformName vars' develop);
       npm G target] in
  let st1 := CssTasks.State tasks1 (CssTasks.generator_options st) in
  st2 ← (if bool_decide (type config = Some "app") then
           package ← package_data E;
           Some (foldl (per_resolution G target develop)
                       (CssTasks.State
                          (Runner.assign tasks1 [pug G (pug_args package target vars')])
                          (CssTasks.generator_options st))
                       resolutions)
         else Some st1);
  Some (CssTasks.State (main_tasks target (CssTasks.tasks st2))
                       (CssTasks.generator_options st2),
        vars').

End PackageGenerator.

(** *** The generator in the second document of src/css.js *)

Module AppGenerator.
Import Package.

Definition webpackConfig (E : env) (target : string)
  (vars' : gmap string JS.value) (develop : bool) : webpack_config :=
  WebpackConfig
    (if develop then "development" else "production")
    (if develop then Some "source-map" else None)
    (resolve E (Path.join [source; "js"; "main.js"]))
    (resolve E target)
    (alias E)
    [DefinePlugin vars'; OccurrenceOrderPlugin]
    (if develop then None else Some false).

Definition build_task : Runner.node :=
  Runner.Parallel [Runner.Ref "pug:build"; Runner.Ref "sass:build";
                   Runner.Ref "css:build"; Runner.Ref "webpack:build";
                   Runner.Ref "gettext:build"; Runner.Ref "copy"].

Definition main_tasks (target : string) (tasks : gmap string Runner.node)
  : gmap string Runner.node :=
  let t := Runner.task "init" (Runner.Fn (Runner.Init target false)) tasks in
  let t := Runner.task "copy"
             (Runner.Fn (Runner.Copy (Path.join [source; "img"])
                                     (Path.join [target; "img"]))) t in
  let t := Runner.task "sass:build" sass_build t in
  let t := Runner.task "css:build" css_build t in
  let t := Runner.task "build" build_task t in
  let t := Runner.task "watch" (Runner.Fn (Runner.Watch source ["css:build"])) t in
  let t := Runner.task "serve" serve t in
  Runner.task "default" default_task t.

(** [module.exports(config)]; [None] when the call throws: on a variable
    that [path.join] or [toLowerCase] cannot take, or on the [require] of
    package.json among the arguments of pug. *)
Definition generator (G : generators) (E : env) (config : config)
  (st : CssTasks.state) : option (CssTasks.state * gmap string JS.value) :=
  target ← target_dir (vars config);
  package ← package_data E;
  let vars' := prepare (vars config) in
  let develop := JS.truthy (JS.get vars' "DEVELOP") in
  let tasks1 :=
    Runner.assign (CssTasks.tasks st)
      [notify G; repl G; eslint G eslint_watch; gettext G (gettext_args target);
       static G (Path.join [target]); livereload G (livereload_watch target);
       pug G (pug_args package target vars');
       webpack G (webpackConfig E target vars' develop);
       npm G target] in
  let st2 :=
    foldl (per_resolution G target develop)
          (CssTasks.State tasks1 (CssTasks.generator_options st))
          resolutions in
  Some (CssTasks.State (main_tasks target (CssTasks.tasks st2))
                       (CssTasks.generator_options st2),
        vars').

End AppGenerator.

(** ** Sample inputs *)

Module Sample.

Definition c480 : Css.config :=
  Css.Config "480" "build/target/css/sdk.480.css" "develop".

(** Two components among the dependencies, one module that is not a
    component, and a key that [Object.keys] moves to the front. *)
Definition package : Css.package :=
  Css.Package (Some [("lodash", "^4.17.21"); ("stb-component-page", "^1.0.0"); ("7", "1.0.0")])
              (Some [("mag-component-panel", "^1.0.0")]).

Definition disk : list (string * string) :=
  [("node_modules/mag-app/css/develop.480.css", "body{}");
   ("node_modules/stb-component-page/css/develop.480.css", ".page{}");
   ("node_modules/mag-component-panel/css/develop.480.css", ".panel{}");
   ("node_modules/lodash/css/develop.480.css", ".lodash{}")].

Definition world : Css.world :=
  Css.World (Some package) (Css.files disk) (fun _ => None) (fun _ => None)
            [2; 0; 1]%nat.

(** The same project when the style sheet of one component is missing. *)
Definition world_missing : Css.world :=
  Css.World (Some package) (Css.files (take 2 disk)) (fun _ => None) (fun _ => None)
            [2; 0; 1]%nat.

(** A project without dependencies whose mag-app has no style sheet. *)
Definition world_bare : Css.world :=
  Css.World (Some (Css.Package None None)) (Css.files []) (fun _ => None)
            (fun _ => None) [0]%nat.

(** A project that depends on lodash only. *)
Definition world_lodash : Css.world :=
  Css.World (Some (Css.Package (Some [("lodash", "^4.17.21")]) None))
            (Css.files disk) (fun _ => None) (fun _ => None) [0]%nat.

(** External generators that contribute the tasks their packages are
    known for, one function per task. *)
Definition ext (generator : string) (names : list string) : gmap string Runner.node :=
  list_to_map ((fun name => (name, Runner.Fn (Runner.External generator name))) <$> names).

Definition generators : Package.generators :=
  Package.Generators
    (ext "notify" ["notify:start"])
    (ext "repl" ["repl:start"])
    (fun _ => ext "eslint" ["eslint:watch"])
    (fun _ => ext "gettext" ["gettext:build"])
    (fun _ => ext "static" ["static:start"])
    (fun _ => ext "livereload" ["livereload:start"])
    (fun _ => ext "pug" ["pug:build"])
    (fun _ => ext "webpack" ["webpack:build"; "webpack:watch"])
    (fun _ => ext "npm" ["npm:publish"])
    (fun _ suffix => ext "sass" ["sass:build" +:+ suffix; "sass:watch" +:+ suffix]).

Definition env : Package.env :=
  Package.Env "/home/dev/app" (Some (JS.Obj [("name", JS.Str "demo")])).

Definition vars : gmap string JS.value :=
  list_to_map [("PLATFORM", JS.Str "MAG"); ("DEVELOP", JS.Str "true");
               ("NAME", JS.Str "demo"); ("PORT", JS.Number 8080)].

(** An application package and a library package. *)
Definition app : Package.config := Package.Config (Some "app") vars.

Definition lib : Package.config := Package.Config (Some "lib") vars.

(** The registry the generator of part_000 leaves for the application
    package, from the state at load time. *)
Definition registry : gmap string Runner.node :=
  match PackageGenerator.generator generators env app CssTasks.initial with
  | Some (st', _) => CssTasks.tasks st'
  | None => ∅
  end.

(** A run in which the bundler fails and the watcher never completes. *)
Definition finish (b : Runner.body) : Runner.result :=
  match b with
  | Runner.External generator name =>
      if String.eqb name "webpack:build" then Runner.Failed else Runner.Ok
  | Runner.Watch _ _ => Runner.Pending
  | _ => Runner.Ok
  end.

End Sample.

(** ** Variations of the environment of [build] *)

Module Variation.

(** The same project and file system, with the reads completing in
    another order. *)
Definition reschedule (w : Css.world) (order : list nat) : Css.world :=
  Css.World (Css.package_json w) (Css.readFile w) (Css.write w) (Css.unlink w) order.

(** The same file system and completion order, with another
    package.json. *)
Definition repackage (w : Css.world) (p : Css.package) : Css.world :=
  Css.World (Some p) (Css.readFile w) (Css.write w) (Css.unlink w)
            (Css.completion w).

(** Every selected style sheet can be read. *)
Definition all_read (w : Css.world) (c : Css.config) (p : Css.package) : Prop :=
  Forall (fun m => Async.succeeded (Css.readFile w (Css.css_path c m)) = true)
         (Css.modules p).

End Variation.

(** ** The package generators, piece by piece *)

Module Assembly.
Import Package.

(** [config.vars.DEVELOP] as the generators read it once the variables
    are prepared. *)
Definition develop (vars : gmap string JS.value) : bool :=
  JS.truthy (JS.get (prepare vars) "DEVELOP").

(** The [webpackConfig] the generator of part_000 hands to the webpack
    generator; [None] when the generator throws before. *)
Definition package_webpack (E : env) (vars : gmap string JS.value)
  : option webpack_config :=
  target ← target_dir vars;
  platformName ← platform_name vars;
  Some (PackageGenerator.webpackConfig E target platformName (prepare vars)
                                      (develop vars)).

(** The [webpackConfig] of the generator in the second document of
    css.js. *)
Definition app_webpack (E : env) (vars : gmap string JS.value)
  : option webpack_config :=
  target ← target_dir vars;
  Some (AppGenerator.webpackConfig E target (prepare vars) (develop vars)).

(** The sources of the first [Object.assign(runner.tasks, ...)] of
    part_000. *)
Definition package_sources (G : generators) (target : string) (wc : webpack_config)
  : list (gmap string Runner.node) :=
  [notify G; repl G; eslint G eslint_watch; gettext G (gettext_args target);
   static G (Path.join [target]); livereload G (livereload_watch target);
   webpack G wc; npm G target].

(** The sources of the first [Object.assign(runner.tasks, ...)] of the
    generator in the second document of css.js. *)
Definition app_sources (G : generators) (package : JS.value) (target : string)
  (vars : gmap string JS.value) (wc : webpack_config)
  : list (gmap string Runner.node) :=
  [notify G; repl G; eslint G eslint_watch; gettext G (gettext_args target);
   static G (Path.join [target]); livereload G (livereload_watch target);
   pug G (pug_args package target (prepare vars));
   webpack G wc; npm G target].

(** The state before the "main tasks" of part_000 are registered;
    [package] is the content of package.json, which only an application
    reads. *)
Definition package_before_main (G : generators) (package : JS.value) (config : config)
  (st : CssTasks.state) (target : string) (wc : webpack_config) : CssTasks.state :=
  if bool_decide (type config = Some "app") then
    foldl (per_resolution G target (develop (vars config)))
          (CssTasks.State
             (Runner.assign
                (Runner.assign (CssTasks.tasks st) (package_sources G target wc))
                [pug G (pug_args package target (prepare (vars config)))])
             (CssTasks.generator_options st))
          resolutions
  else CssTasks.State (Runner.assign (CssTasks.tasks st) (package_sources G target wc))
                      (CssTasks.generator_options st).

(** The state before the main tasks of the other generator. *)
Definition app_before_main (G : generators) (package : JS.value) (config : config)
  (st : CssTasks.state) (target : string) (wc : webpack_config) : CssTasks.state :=
  foldl (per_resolution G target (develop (vars config)))
        (CssTasks.State
           (Runner.assign (CssTasks.tasks st)
                          (app_sources G package target (vars config) wc))
           (CssTasks.generator_options st))
        resolutions.

(** The names the generator in the second document of css.js registers
    under "main tasks". *)
Definition app_main_names : list string :=
  ["init"; "copy"; "sass:build"; "css:build"; "build"; "watch"; "serve"; "default"].

(** The [config] of the CSS tasks of one resolution. *)
Definition css_config (target : string) (vars : gmap string JS.value)
  (resolution : string) : Css.config :=
  Css.Config resolution
             (Path.join [target; "css"; "sdk." +:+ resolution +:+ ".css"])
             (if develop vars then "develop" else "release").

End Assembly.

(** ** The task functions of the package generators *)

Module Tasks.

(** The last property of that name in an object literal, as JSON.parse
    keeps it. *)
Fixpoint last_field (fields : list (string * JS.value)) (k : string)
  : option JS.value :=
  match fields with
  | [] => None
  | (k', v) :: rest =>
      match last_field rest k with
      | Some v' => Some v'
      | None => if String.eqb k' k then Some v else None
      end
  end.

(** The properties gettext:prepare reads; [Object.prototype] defines none
    of them. *)
Inductive key := config_key | name_key | description_key.

Definition key_name (k : key) : string :=
  match k with
  | config_key => "config"
  | name_key => "name"
  | description_key => "description"
  end.

(** Property read [v.k] on a value read from JSON, for one of these
    names: [None] when the read throws a TypeError ([v] is [null] or
    [undefined]), and [undefined] unless [v] is an object that has the
    property. *)
Definition property (v : JS.value) (k : key) : option JS.value :=
  match v with
  | JS.Undefined | JS.Null => None
  | JS.Obj fields => Some (default JS.Undefined (last_field fields (key_name k)))
  | _ => Some JS.Undefined
  end.


(** The environment of a task: what the file system and the tools of
    runner-tools answer. [package] is what [require] gives for
    package.json: its content, or the error thrown when it cannot be
    loaded. [print_double] is how the engine prints the double nearest to
    an integer beyond [2^53], where the double is no longer the integer. *)
Record world := World {
  mkdir : list string -> option string;
  readFile : string -> Async.outcome string;
  write : list (string * string) -> option string;
  writeFileSync : string -> string -> option string;
  package : Async.outcome JS.value;
  print_double : Z -> string
}.

(** ToString, as string concatenation applies it to a value read from
    JSON; [None] when it throws a TypeError. An integer up to [2^53] in
    absolute value is its own double and prints in decimal. An object is
    converted by the [toString] it inherits, unless it has a property of
    that name: the property hides the method and is not callable. *)
Definition to_string (w : world) (v : JS.value) : option string :=
  match v with
  | JS.Undefined => Some "undefined"
  | JS.Null => Some "null"
  | JS.Bool b => Some (if b then "true" else "false")
  | JS.Number n =>
      Some (if bool_decide (Z.abs n ≤ 2 ^ 53)%Z then pretty n else print_double w n)
  | JS.Str s => Some s
  | JS.Obj fields =>
      match last_field fields "toString" with
      | Some _ => None
      | None => Some "[object Object]"
      end
  end.

(** The argument of a call of the completion callback: nothing (or a
    falsy value), an error as a tool reported it, or the literal [true]. *)
Inductive argument :=
| NoError
| Reported (error : string)
| JustTrue.

(** What a tool reported, as it reaches a callback. *)
Definition reported (outcome : option string) : argument :=
  match outcome with
  | Some e => Reported e
  | None => NoError
  end.

(** What a task function does, in order. [Done a] is a call of the
    completion callback; [Run task] is [runner.run(task, done)], which
    hands the callback on to that task. *)
Inductive event :=
| Mkdir (dirs : list string)
| ReadFile (path : string)
| LogFail (error : string)
| WriteFile (name data : string)
| Run (task : string)
| Done (a : argument)
| Throw (what : string).

#[global] Instance argument_eq_dec : EqDecision argument.
Proof. solve_decision. Defined.

#[global] Instance event_eq_dec : EqDecision event.
Proof. solve_decision. Defined.

Definition is_done (e : event) : bool :=
  match e with Done _ => true | _ => false end.

Definition is_write (e : event) : bool :=
  match e with WriteFile _ _ => true | _ => false end.

(** The directories both init tasks create. *)
Definition init_dirs (target : string) : list string :=
  [Path.join [target; "lang"]; Path.join [target; "css"]].

(** The init task of part_000. The callback given to [tools.mkdir] takes
    no argument, and so does the one given to [tools.write]. *)
Definition init (w : world) (target : string) : list event :=
  Mkdir (init_dirs target)
  :: ReadFile ".npmignore"
  :: match readFile w ".npmignore" with
     | inl error => [LogFail error; Done JustTrue]
     | inr data =>
         [WriteFile (Path.join [target; ".npmignore"]) data; Run "gettext:prepare"]
     end.

(** The init task of the generator in the second document of css.js:
    the copy is synchronous, inside the callback of [tools.mkdir]. *)
Definition init_sync (w : world) (target : string) : list event :=
  Mkdir (init_dirs target)
  :: ReadFile ".npmignore"
  :: match readFile w ".npmignore" with
     | inl error => [Throw error]
     | inr data =>
         WriteFile (Path.join [target; ".npmignore"]) data
         :: match writeFileSync w (Path.join [target; ".npmignore"]) data with
            | Some error => [Throw error]
            | None => [Done (reported (mkdir w (init_dirs target)))]
            end
     end.

Definition header : list string :=
  ["/* This file is autogenerated by gettext:prepare runner task. */";
   "/* eslint-disable */"; EmptyString].

(** ['gettext("' + text + '");'] *)
Definition gettext_call (text : string) : string :=
  "gettext(" +:+ JS.quote +:+ text +:+ JS.quote +:+ ");".

(** [if ( v ) { jsData.push('gettext("' + v + '");'); }]; [None] when the
    concatenation throws. *)
Definition push_gettext (w : world) (jsData : list string) (v : JS.value)
  : option (list string) :=
  if JS.truthy v then
    text ← to_string w v;
    Some (jsData ++ [gettext_call text])
  else Some jsData.

(** The [jsData] array before the final [push('')]. *)
Definition jsData (w : world) (packageConfig : JS.value) : option (list string) :=
  name ← property packageConfig name_key;
  jsData ← push_gettext w header name;
  description ← property packageConfig description_key;
  push_gettext w jsData description.



End Tasks.

(** ** More sample inputs *)

Module Cases.

(** A package.json with a name and an empty description to translate. *)
Definition package_json : JS.value :=
  JS.Obj [("name", JS.Str "demo");
          ("config", JS.Obj [("name", JS.Str "Demo app");
                             ("description", JS.Str EmptyString)])].

(** No package.json of the sample projects holds a number, so none of
    them asks how a number beyond [2^53] prints; the sample engine answers
    with the name of the operation. *)
Definition print_double (n : Z) : string := "Number::toString".

(** A project whose directories cannot be created but whose files can
    be read and written. *)
Definition project : Tasks.world :=
  Tasks.World (fun _ => Some "EACCES")
              (fun path => if String.eqb path ".npmignore" then inr "node_modules"
                           else inl "ENOENT")
              (fun _ => Some "EROFS") (fun _ _ => None) (inr package_json)
              print_double.

(** The same project without its .npmignore. *)
Definition project_bare : Tasks.world :=
  Tasks.World (fun _ => None) (fun _ => inl "ENOENT") (fun _ => None)
              (fun _ _ => None) (inr package_json) print_double.



(** A Tizen build selected by PLATFORM, in capitals. *)
Definition tizen_platform : gmap string JS.value :=
  list_to_map [("PLATFORM", JS.Str "TIZEN"); ("DEVELOP", JS.Str "true")].

(** The same selected by TARGET alone, in capitals. *)
Definition tizen_target : gmap string JS.value :=
  list_to_map [("TARGET", JS.Str "TIZEN")].


End Cases.

(** * Properties *)

(** ** Arrays and fan-out *)

Section ArraySet.
Context {A : Type}.
Implicit Types (l : list (option A)) (i j : nat) (x : A).

Lemma array_set_length l i x :
  length (JS.array_set i x l) = max (length l) (S i).
Proof.
  unfold JS.array_set. destruct (Nat.ltb_spec i (length l)).
  - rewrite length_insert. lia.
  - rewrite !length_app, length_replicate. simpl. lia.
Qed.

Lemma array_set_lookup l i j x :
  default None (JS.array_set i x l !! j)
  = if decide (j = i) then Some x else default None (l !! j).
Proof.
  unfold JS.array_set. destruct (Nat.ltb_spec i (length l)) as [Hlt|Hge].
  - destruct (decide (j = i)) as [->|Hne].
    + by rewrite list_lookup_insert_eq.
    + by rewrite list_lookup_insert_ne.
  - destruct (decide (j = i)) as [->|Hne].
    + rewrite lookup_app_r by lia.
      rewrite lookup_app_r by (rewrite length_replicate; lia).
      rewrite length_replicate.
      by replace (i - length l - (i - length l))%nat with 0%nat by lia.
    + destruct (decide (j < length l)%nat).
      * by rewrite lookup_app_l.
      * rewrite lookup_app_r by lia.
        rewrite (lookup_ge_None_2 l j) by lia. simpl.
        destruct (decide (j - length l < i - length l)%nat).
        -- rewrite lookup_app_l by (rewrite length_replicate; lia).
           by rewrite lookup_replicate_2.
        -- rewrite lookup_app_r by (rewrite length_replicate; lia).
           rewrite length_replicate.
           rewrite lookup_ge_None_2; [done|]. simpl. lia.
Qed.
End ArraySet.

Section Parallel.
Context {A : Type}.
Implicit Types (outcomes : list (Async.outcome A)) (order : list nat).
Implicit Types (datas : list A).

Lemma drain_snoc outcomes order i :
  Async.drain outcomes (order ++ [i])
  = Async.settle outcomes (Async.drain outcomes order) i.
Proof. unfold Async.drain. by rewrite foldl_app. Qed.

(** While every task succeeds, the counter follows the number of
    completions, the slots of the completed tasks are filled, and the
    callback is invoked when the last one completes. *)
Lemma drain_all_ok datas order :
  (0 < length datas)%nat →
  (length order ≤ length datas)%nat →
  Forall (fun i => (i < length datas)%nat) order →
  Async.isError (Async.drain (inr <$> datas : list (Async.outcome A)) order) = false
  ∧ Async.counter (Async.drain (inr <$> datas : list (Async.outcome A)) order)
    = length order
  ∧ (length (Async.outList (Async.drain (inr <$> datas : list (Async.outcome A)) order))
     ≤ length datas)%nat
  ∧ (∀ j, default None
            (Async.outList (Async.drain (inr <$> datas : list (Async.outcome A)) order) !! j)
          = if decide (j ∈ order) then datas !! j else None)
  ∧ Async.calls (Async.drain (inr <$> datas : list (Async.outcome A)) order)
    = if decide (length datas ≤ length order)%nat
      then [Async.CallResults
              (Async.outList (Async.drain (inr <$> datas : list (Async.outcome A)) order))]
      else [].
Proof.
  intros Hpos.
  induction order as [|i order IH] using rev_ind; intros Hlen Hall.
  - simpl. repeat split; try done; try lia.
    case_decide; [simpl in *; lia|done].
  - rewrite length_app in Hlen. simpl in Hlen.
    apply Forall_app in Hall as [Hall Hi].
    rewrite Forall_singleton in Hi.
    destruct IH as (He & Hc & Hl & Hout & Hcalls); [lia|done|].
    rewrite drain_snoc. unfold Async.settle.
    rewrite list_lookup_fmap.
    destruct (lookup_lt_is_Some_2 datas i Hi) as [d Hd].
    rewrite Hd. simpl.
    rewrite length_fmap, He, Hc, Hcalls.
    rewrite decide_False by lia. simpl.
    rewrite length_app. simpl.
    repeat split.
    + lia.
    + rewrite array_set_length. lia.
    + intros j. rewrite array_set_lookup, Hout.
      destruct (decide (j = i)) as [->|Hne].
      * rewrite decide_True; [done|]. apply elem_of_app. right. by left.
      * destruct (decide (j ∈ order)) as [Hin|Hnin].
        -- rewrite decide_True; [done|]. apply elem_of_app. by left.
        -- rewrite decide_False; [done|]. intros [?|Hj]%elem_of_app; [done|].
           by apply list_elem_of_singleton in Hj.
    + rewrite andb_true_r.
      destruct (Nat.leb_spec (length datas) (S (length order))).
      * rewrite decide_True by lia. done.
      * rewrite decide_False by lia. done.
Qed.

(** When every task succeeds and each completes once, the callback is
    invoked once, with the results in task order, whatever the order
    of completion. *)
Lemma parallel_all_ok datas order :
  Async.schedule (length datas) order →
  Async.parallel (inr <$> datas : list (Async.outcome A)) order
  = [Async.CallResults (Some <$> datas)].
Proof.
  intros Hperm. destruct datas as [|d0 datas0] eqn:Hd; [done|].
  rewrite <- Hd in *. assert (0 < length datas)%nat as Hpos by (subst; simpl; lia).
  assert (length order = length datas) as Hlen.
  { rewrite (Permutation_length Hperm). apply length_seq. }
  assert (∀ i, i ∈ order ↔ (i < length datas)%nat) as Hin.
  { intros i. rewrite Hperm, elem_of_seq. lia. }
  destruct (drain_all_ok datas order) as (_ & _ & Hl & Hout & Hcalls);
    [done|lia| |].
  { apply Forall_forall. intros i. apply Hin. }
  unfold Async.parallel.
  replace (inr <$> datas) with (inr <$> d0 :: datas0 : list (Async.outcome A))
    at 1 by (by subst).
  simpl. rewrite Hcalls, decide_True by lia. do 2 f_equal.
  apply list_eq. intros j. rewrite list_lookup_fmap.
  specialize (Hout j). destruct (decide (j ∈ order)) as [Hj|Hj].
  - apply Hin in Hj. destruct (lookup_lt_is_Some_2 datas j Hj) as [d Hdj].
    rewrite Hdj in *. simpl.
    destruct (Async.outList _ !! j) as [[x|]|]; simpl in Hout; congruence.
  - rewrite Hin in Hj.
    rewrite (lookup_ge_None_2 datas j) by lia.
    rewrite lookup_ge_None_2; [done|lia].
Qed.

(** Distinct task numbers that all avoid one task are fewer than the
    tasks. *)
Lemma fewer_than_tasks (n j : nat) (l : list nat) :
  NoDup l → (j < n)%nat → (∀ i, i ∈ l → (i < n)%nat ∧ i ≠ j) →
  (length l < n)%nat.
Proof.
  intros Hnd Hj Hl.
  assert (NoDup (j :: l)) as Hnd'.
  { apply NoDup_cons. split; [|done]. intros Hin. by destruct (Hl j Hin). }
  assert (j :: l ⊆+ seq 0 n) as Hsub.
  { apply NoDup_submseteq; [done|]. intros i Hi. apply elem_of_seq.
    apply elem_of_cons in Hi as [->|Hi]; [lia|]. destruct (Hl i Hi). lia. }
  apply submseteq_length in Hsub. rewrite length_seq in Hsub. simpl in Hsub. lia.
Qed.

Lemma drain_counts outcomes order :
  Async.counter (Async.drain outcomes order)
  = length (filter (Async.reports_result outcomes) order).
Proof.
  induction order as [|i order IH] using rev_ind; [done|].
  rewrite drain_snoc, filter_app, length_app, <- IH. unfold Async.settle.
  rewrite filter_cons, filter_nil.
  destruct (decide (Async.reports_result outcomes i)) as [Hi|Hi];
    unfold Async.reports_result in Hi;
    destruct (outcomes !! i) as [[e|a]|]; simpl in *;
    try discriminate; try lia; by destruct Hi.
Qed.

(** When some task fails and each task completes at most once, the
    callback never gets results. *)
Lemma drain_failure outcomes order j e :
  outcomes !! j = Some (inl e) → NoDup order →
  Forall (fun c => Async.is_results c = false)
         (Async.calls (Async.drain outcomes order)).
Proof.
  intros Hj. induction order as [|i order IH] using rev_ind; intros Hnd.
  - constructor.
  - apply NoDup_app in Hnd as Hparts. destruct Hparts as (Hnd1 & _ & _).
    specialize (IH Hnd1).
    pose proof (drain_counts outcomes (order ++ [i])) as Hcount.
    rewrite drain_snoc in Hcount |- *. unfold Async.settle in *.
    destruct (outcomes !! i) as [[e'|a]|] eqn:Hi; simpl in *; [| |done].
    + destruct (Async.isError _); [done|].
      apply Forall_app. split; [done|]. by repeat constructor.
    + rewrite Hcount.
      assert (length (filter (Async.reports_result outcomes) (order ++ [i]))
              < length outcomes)%nat as Hlt.
      { apply (fewer_than_tasks _ j).
        - by apply NoDup_filter.
        - apply lookup_lt_is_Some_1. by eexists.
        - intros k [Hk _]%list_elem_of_filter. unfold Async.reports_result in Hk.
          split.
          + apply lookup_lt_is_Some_1.
            destruct (outcomes !! k); [by eexists|done].
          + intros ->. unfold Async.outcome in *. rewrite Hj in Hk. by inversion Hk. }
      destruct (Nat.leb_spec (length outcomes)
                  (length (filter (Async.reports_result outcomes) (order ++ [i]))));
        [lia|]. done.
Qed.

Lemma parallel_failure outcomes order j e :
  outcomes !! j = Some (inl e) → NoDup order →
  Forall (fun c => Async.is_results c = false) (Async.parallel outcomes order).
Proof.
  intros Hj Hnd. unfold Async.parallel. destruct outcomes as [|o outcomes'] eqn:Ho.
  - by rewrite lookup_nil in Hj.
  - rewrite <- Ho in *. by eapply drain_failure.
Qed.

Lemma schedule_NoDup n order : Async.schedule n order → NoDup order.
Proof. intros Hperm. unfold Async.schedule in Hperm. rewrite Hperm. apply NoDup_seq. Qed.
End Parallel.

(** ** Own-key order and component names *)

Lemma all_digits_substring (s : string) (n m : nat) :
  JS.all_digits s = true → JS.all_digits (String.substring n m s) = true.
Proof.
  revert n m. induction s as [|c s IH]; intros n m Hs.
  - by destruct n, m.
  - simpl in Hs. apply andb_true_iff in Hs as [Hc Hs].
    destruct n as [|n], m as [|m]; simpl; auto.
    rewrite Hc. simpl. by apply IH.
Qed.

Lemma array_index_digits (s : string) (v : N) :
  JS.array_index s = Some v → JS.all_digits s = true.
Proof.
  unfold JS.array_index. destruct s as [|c s]; [done|].
  destruct (JS.all_digits (String c s)); [done|]. simpl. done.
Qed.

(** An array-index key never names a component. *)
Lemma array_index_not_component (s : string) (v : N) :
  JS.array_index s = Some v → Css.is_component s = false.
Proof.
  intros Hs%array_index_digits. unfold Css.is_component, JS.indexOf.
  destruct (String.index 0 "-component-" s) as [m|] eqn:Hidx; [|done].
  apply String.index_correct1 in Hidx.
  apply (all_digits_substring s m (String.length "-component-")) in Hs.
  rewrite Hidx in Hs. discriminate Hs.
Qed.

Lemma insert_index_elem (x y : N * string) (l : list (N * string)) :
  y ∈ JS.insert_index x l → y = x ∨ y ∈ l.
Proof.
  induction l as [|z l IH]; simpl.
  - intros ->%list_elem_of_singleton. by left.
  - destruct (x.1 <? z.1)%N.
    + intros [->|Hy]%elem_of_cons; [by left|by right].
    + intros [->|Hy]%elem_of_cons; [right; by left|].
      destruct (IH Hy) as [->|?]; [by left|right; by right].
Qed.

Lemma sort_index_elem (y : N * string) (l : list (N * string)) :
  y ∈ JS.sort_index l → y ∈ l.
Proof.
  induction l as [|x l IH]; simpl; [done|].
  intros [->|Hy]%insert_index_elem; [by left|right; by apply IH].
Qed.

Lemma index_keys_elem (n : N) (k : string) (ks : list string) :
  (n, k) ∈ JS.index_keys ks → JS.array_index k = Some n.
Proof.
  unfold JS.index_keys. intros (k' & Hk' & Heq)%list_elem_of_omap.
  destruct (JS.array_index k') as [n'|] eqn:Hidx; simpl in Heq; [|done].
  by injection Heq as -> ->.
Qed.

Lemma filter_nothing {A} (P : A → Prop) `{∀ x, Decision (P x)} (l : list A) :
  (∀ x, x ∈ l → ¬ P x) → filter P l = [].
Proof.
  induction l as [|x l IH]; intros Hl; [done|].
  rewrite filter_cons, decide_False by (apply Hl; by left).
  apply IH. intros y Hy. apply Hl. by right.
Qed.

Lemma filter_filter_implied {A} (P Q : A → Prop)
  `{∀ x, Decision (P x)} `{∀ x, Decision (Q x)} (l : list A) :
  (∀ x, P x → Q x) → filter P (filter Q l) = filter P l.
Proof.
  intros HPQ. induction l as [|x l IH]; [done|].
  rewrite !filter_cons. destruct (decide (Q x)) as [HQ|HQ].
  - rewrite filter_cons. destruct (decide (P x)); by rewrite IH.
  - rewrite decide_False by (intros HP; by apply HQ, HPQ). done.
Qed.

(** The component names among the own keys of an object come in
    insertion order: the keys that [Object.keys] moves to the front are
    numerals. *)
Lemma components_in_insertion_order (ks : list string) :
  filter (fun m => Css.is_component m = true) (JS.ordered_keys ks)
  = filter (fun m => Css.is_component m = true) ks.
Proof.
  unfold JS.ordered_keys. rewrite filter_app.
  rewrite (filter_nothing _ (_.*2)).
  - simpl. apply filter_filter_implied. intros k Hk.
    destruct (JS.array_index k) as [n|] eqn:Hidx; [|done].
    apply array_index_not_component in Hidx. congruence.
  - intros k Hk.
    apply list_elem_of_fmap in Hk as ([n k'] & -> & Hin). simpl.
    apply sort_index_elem, index_keys_elem, array_index_not_component in Hin.
    congruence.
Qed.

(** ** css.js: build *)

Section Build.
Implicit Types (w : Css.world) (c : Css.config) (p : Css.package).

(** The code's module list is mag-app followed by the component names
    in declaration order. *)
Lemma modules_listed p :
  Css.modules p
  = "mag-app" :: filter (fun m => Css.is_component m = true) (Css.listed p).
Proof.
  unfold Css.modules, Css.declared, Css.listed, JS.Object_keys.
  by rewrite !filter_app, !components_in_insertion_order.
Qed.

Lemma join_full (sep : string) (l : list string) :
  JS.join sep (Some <$> l) = String.concat sep l.
Proof.
  unfold JS.join. f_equal. induction l as [|x l IH]; [done|].
  simpl. by f_equal.
Qed.

Lemma reads_succeed w c (ms : list string) (contents : list string) :
  Forall2 (fun m data => Css.readFile w (Css.css_path c m) = inr data) ms contents →
  Css.readFile w <$> (Css.css_path c <$> ms) = inr <$> contents.
Proof.
  induction 1 as [|m d ms ds Hm _ IH]; [done|].
  by rewrite !fmap_cons, Hm, IH.
Qed.

Lemma on_results_no_read w c (cbs : list (Async.call string)) :
  filter (fun e => Css.is_read e = true) (flat_map (Css.on_results w c) cbs) = [].
Proof.
  induction cbs as [|cb cbs IH]; [done|]. simpl. rewrite filter_app, IH.
  by destruct cb.
Qed.

Lemma on_errors_nothing w c (cbs : list (Async.call string)) :
  Forall (fun cb => Async.is_results cb = false) cbs →
  flat_map (Css.on_results w c) cbs = [].
Proof.
  induction 1 as [|cb cbs Hcb _ IH]; [done|]. simpl. rewrite IH.
  by destruct cb.
Qed.

(** A failed read leaves the trace of [build] at the reads it issued. *)
Lemma build_failed_read w c p m e :
  Css.package_json w = Some p →
  Async.schedule (length (Css.modules p)) (Css.completion w) →
  m ∈ Css.modules p →
  Css.readFile w (Css.css_path c m) = inl e →
  Css.build w c = Css.ReadFile <$> (Css.css_path c <$> Css.modules p).
Proof.
  intros Hp Hsched Hm He. unfold Css.build. rewrite Hp.
  apply list_elem_of_lookup in Hm as [j Hj].
  rewrite (on_errors_nothing w c).
  - by rewrite app_nil_r.
  - apply (parallel_failure _ _ j e).
    + rewrite !list_lookup_fmap, Hj. simpl. by rewrite He.
    + by eapply schedule_NoDup.
Qed.
End Build.

(** C1, as the code has it: when every selected style sheet can be read,
    [build] writes one file, [config.outFile], whose content is the
    contents of the style sheets joined by a line feed, in the order of
    the module list: mag-app first, then the names of [dependencies]
    that contain "-component-" in declaration order, then those of
    [devDependencies] in declaration order; the order in which the reads
    complete does not matter. *)
Theorem build_concatenates_in_declaration_order
  (w : Css.world) (c : Css.config) (p : Css.package) (contents : list string) :
  Css.package_json w = Some p →
  Async.schedule (length contents) (Css.completion w) →
  Forall2 (fun m data => Css.readFile w (Css.css_path c m) = inr data)
          ("mag-app" :: filter (fun m => Css.is_component m = true) (Css.listed p))
          contents →
  Css.modules p
  = "mag-app" :: filter (fun m => Css.is_component m = true) (Css.listed p)
  ∧ filter (fun e => Css.is_write e = true) (Css.build w c)
    = [Css.WriteFile (Css.outFile c) (String.concat JS.LF contents)]
  ∧ Css.build w c
    = (Css.ReadFile <$> (Css.css_path c <$> Css.modules p))
      ++ [Css.WriteFile (Css.outFile c) (String.concat JS.LF contents);
          Css.Done (Css.write w [(Css.outFile c, String.concat JS.LF contents)])].
Proof.
  intros Hp Hsched Hreads. rewrite <- modules_listed in Hreads.
  split; [apply modules_listed|].
  assert (Css.build w c
          = (Css.ReadFile <$> (Css.css_path c <$> Css.modules p))
            ++ [Css.WriteFile (Css.outFile c) (String.concat JS.LF contents);
                Css.Done (Css.write w [(Css.outFile c, String.concat JS.LF contents)])])
    as Hbuild.
  { unfold Css.build. rewrite Hp. f_equal.
    change (map (Css.readFile w) (map (Css.css_path c) (Css.modules p)))
      with (Css.readFile w <$> (Css.css_path c <$> Css.modules p)).
    rewrite (reads_succeed w c _ contents Hreads).
    rewrite parallel_all_ok by done. simpl.
    unfold Css.tools_write. simpl. by rewrite join_full. }
  split; [|done]. rewrite Hbuild, filter_app.
  rewrite (filter_nothing _ (Css.ReadFile <$> _)).
  - done.
  - intros e (path & -> & _)%list_elem_of_fmap. done.
Qed.

Lemma build_concatenates_witness :
  Css.build Sample.world Sample.c480
  = [Css.ReadFile "node_modules/mag-app/css/develop.480.css";
     Css.ReadFile "node_modules/stb-component-page/css/develop.480.css";
     Css.ReadFile "node_modules/mag-component-panel/css/develop.480.css";
     Css.WriteFile "build/target/css/sdk.480.css"
       ("body{}" +:+ JS.LF +:+ ".page{}" +:+ JS.LF +:+ ".panel{}");
     Css.Done None].
Proof.
  apply (build_concatenates_in_declaration_order
           Sample.world Sample.c480 Sample.package ["body{}"; ".page{}"; ".panel{}"]).
  - reflexivity.
  - unfold Async.schedule. apply (bool_decide_unpack _). vm_compute. reflexivity.
  - repeat constructor.
Defined.

(** C1 as stated fails: the output does not hold the style sheet of
    every listed module. A project that lists lodash only, with the style
    sheets of mag-app and lodash both on disk, gets an output file that
    holds the style sheet of mag-app alone. *)
Lemma build_concatenates_not_every_dependency :
  filter (fun e => Css.is_write e = true) (Css.build Sample.world_lodash Sample.c480)
  = [Css.WriteFile "build/target/css/sdk.480.css" "body{}"]
  ∧ ¬ (∀ contents : list string,
         Forall2 (fun m data =>
                    Css.readFile Sample.world_lodash (Css.css_path Sample.c480 m)
                    = inr data)
                 ("mag-app"
                  :: Css.listed (Css.Package (Some [("lodash", "^4.17.21")]) None))
                 contents →
         filter (fun e => Css.is_write e = true)
                (Css.build Sample.world_lodash Sample.c480)
         = [Css.WriteFile (Css.outFile Sample.c480) (String.concat JS.LF contents)]).
Proof.
  split; [by vm_compute|].
  intros Hall. specialize (Hall ["body{}"; ".lodash{}"]).
  assert (filter (fun e => Css.is_write e = true)
                 (Css.build Sample.world_lodash Sample.c480)
          = [Css.WriteFile (Css.outFile Sample.c480)
               (String.concat JS.LF ["body{}"; ".lodash{}"])]) as Hwrite.
  { apply Hall. repeat constructor. }
  vm_compute in Hwrite. discriminate Hwrite.
Qed.

(** C2: when the read of one of the selected style sheets fails, [build]
    hands nothing to [tools.write]: its trace holds no write, whatever
    the order in which the reads complete. *)
Theorem build_failed_read_writes_nothing
  (w : Css.world) (c : Css.config) (p : Css.package) (m e : string) :
  Css.package_json w = Some p →
  Async.schedule (length (Css.modules p)) (Css.completion w) →
  m ∈ Css.modules p →
  Css.readFile w (Css.css_path c m) = inl e →
  Forall (fun ev => Css.is_write ev = false) (Css.build w c).
Proof.
  intros Hp Hsched Hm He.
  rewrite (build_failed_read w c p m e) by done.
  apply Forall_forall. intros ev (path & -> & _)%list_elem_of_fmap. done.
Qed.

Lemma build_failed_read_witness :
  Forall (fun ev => Css.is_write ev = false)
         (Css.build Sample.world_missing Sample.c480).
Proof.
  apply (build_failed_read_writes_nothing
           Sample.world_missing Sample.c480 Sample.package
           "mag-component-panel" "ENOENT").
  - reflexivity.
  - unfold Async.schedule. apply (bool_decide_unpack _). vm_compute. reflexivity.
  - apply (bool_decide_unpack _). vm_compute. reflexivity.
  - reflexivity.
Defined.

(** C3, as the code has it: [build] issues one read per entry of its
    module list and no other, in that order: the style sheet
    [<mode>.<resolution>.css] of mag-app, then that of every name of
    [dependencies] and [devDependencies] that contains "-component-",
    once per listing. *)
Theorem build_reads_mag_app_and_components
  (w : Css.world) (c : Css.config) (p : Css.package) :
  Css.package_json w = Some p →
  filter (fun e => Css.is_read e = true) (Css.build w c)
  = (fun m => Css.ReadFile
                (Path.join ["node_modules"; m; "css";
                            Css.mode c +:+ "." +:+ Css.resolution c +:+ ".css"]))
    <$> "mag-app" :: filter (fun m => Css.is_component m = true) (Css.listed p).
Proof.
  intros Hp. unfold Css.build. rewrite Hp, filter_app, on_results_no_read, app_nil_r.
  rewrite <- modules_listed.
  change (map Css.ReadFile (map (Css.css_path c) (Css.modules p)))
    with (Css.ReadFile <$> (Css.css_path c <$> Css.modules p)).
  rewrite <- list_fmap_compose.
  generalize (Css.modules p). intros ms.
  induction ms as [|m ms IH]; [done|].
  rewrite fmap_cons, filter_cons. simpl. by rewrite IH.
Qed.

Lemma build_reads_witness :
  filter (fun e => Css.is_read e = true) (Css.build Sample.world Sample.c480)
  = [Css.ReadFile "node_modules/mag-app/css/develop.480.css";
     Css.ReadFile "node_modules/stb-component-page/css/develop.480.css";
     Css.ReadFile "node_modules/mag-component-panel/css/develop.480.css"].
Proof.
  apply (build_reads_mag_app_and_components Sample.world Sample.c480 Sample.package).
  reflexivity.
Defined.

(** C3 as stated fails: a project that lists lodash only has the style
    sheet of mag-app read, which is not listed, and that of lodash not
    read, although it is listed (and present on disk). *)
Lemma build_reads_not_every_dependency :
  ¬ (∀ name : string,
       name ∈ Css.listed (Css.Package (Some [("lodash", "^4.17.21")]) None)
       ↔ Css.ReadFile (Path.join ["node_modules"; name; "css"; "develop.480.css"])
         ∈ Css.build Sample.world_lodash Sample.c480).
Proof.
  intros Hall. destruct (Hall "lodash") as [Hread _].
  assert (Css.ReadFile (Path.join ["node_modules"; "lodash"; "css"; "develop.480.css"])
          ∈ Css.build Sample.world_lodash Sample.c480) as Hin.
  { apply Hread. apply (bool_decide_unpack _). vm_compute. reflexivity. }
  revert Hin. apply (bool_decide_unpack _). vm_compute. reflexivity.
Qed.

(** C4 fails on the code: when the style sheet of mag-app is missing,
    [build] issues its read and then does nothing more; the completion
    callback [done] is not invoked, with the error or without. *)
Theorem build_failure_never_reports :
  Css.build Sample.world_bare Sample.c480
  = [Css.ReadFile "node_modules/mag-app/css/develop.480.css"]
  ∧ Css.readFile Sample.world_bare "node_modules/mag-app/css/develop.480.css"
    = inl "ENOENT"
  ∧ filter (fun e => Css.is_done e = true) (Css.build Sample.world_bare Sample.c480)
    = [].
Proof. by vm_compute. Qed.

(** ** Preparation of the build variables *)

Section Prepare.
Implicit Types (vars : gmap string JS.value) (name : string).

Lemma escape_one_lookup vars name k :
  Package.escape_one vars name !! k
  = if decide (k = name) then Package.escaped <$> vars !! name else vars !! k.
Proof.
  unfold Package.escape_one, JS.get.
  destruct (decide (k = name)) as [->|Hne].
  - destruct (vars !! name) as [[| |b|n|s|o]|] eqn:Hv; simpl; try by rewrite Hv.
    by rewrite lookup_insert_eq.
  - destruct (vars !! name) as [[| |b|n|s|o]|]; simpl; try done.
    by rewrite lookup_insert_ne.
Qed.

(** Escaping name after name, each once, escapes every value listed. *)
Lemma escape_fold_lookup (names : list string) vars k :
  NoDup names →
  foldl Package.escape_one vars names !! k
  = if decide (k ∈ names) then Package.escaped <$> vars !! k else vars !! k.
Proof.
  revert vars. induction names as [|name names IH]; intros vars Hnd.
  - rewrite decide_False by apply not_elem_of_nil. done.
  - apply NoDup_cons in Hnd as [Hname Hnd]. simpl. rewrite IH by done.
    rewrite escape_one_lookup.
    destruct (decide (k = name)) as [->|Hne].
    + rewrite decide_False by done. rewrite decide_True by (by left). done.
    + destruct (decide (k ∈ names)) as [Hin|Hnin].
      * rewrite decide_True by (by right). done.
      * rewrite decide_False; [done|].
        by intros [?|?]%elem_of_cons.
Qed.

(** The escaping loop maps every value through [escaped]. *)
Lemma escape_fmap vars : Package.escape vars = Package.escaped <$> vars.
Proof.
  apply map_eq. intros k. unfold Package.escape.
  rewrite escape_fold_lookup by apply NoDup_fst_map_to_list.
  rewrite lookup_fmap. case_decide as Hk; [done|].
  destruct (vars !! k) as [v|] eqn:Hv; [|done].
  exfalso. apply Hk. apply list_elem_of_fmap. exists (k, v). split; [done|].
  by apply elem_of_map_to_list.
Qed.

Lemma develop_flag_true vars :
  Package.develop_flag vars = true ↔ vars !! "DEVELOP" = Some (JS.Str "true").
Proof.
  unfold Package.develop_flag, JS.get.
  destruct (vars !! "DEVELOP") as [[| |b|n|s|o]|]; simpl;
    try (split; [by repeat case_match|by intros [=]]).
  destruct (String.eqb_spec s "true") as [->|Hs].
  - done.
  - split; [by destruct (negb _)|]. intros [=]. done.
Qed.

Lemma prepare_lookup vars name :
  Package.prepare vars !! name
  = if decide (name = "LIVERELOAD") then Some (JS.Obj [("port", JS.Number 35729)])
    else if decide (name = "DEVELOP")
         then Some (JS.Bool (Package.develop_flag vars))
         else Package.escaped <$> vars !! name.
Proof.
  unfold Package.prepare, Package.sanitize.
  rewrite escape_fmap, lookup_fmap.
  destruct (decide (name = "LIVERELOAD")) as [->|Hl].
  - by rewrite lookup_insert_eq.
  - rewrite lookup_insert_ne by done.
    destruct (decide (name = "DEVELOP")) as [->|Hd].
    + by rewrite lookup_insert_eq.
    + by rewrite lookup_insert_ne.
Qed.

End Prepare.




(** ** The build target directory *)

Section Target.
Implicit Types (s t : string).












End Target.



(** ** css.js: the tasks generator *)

Section Generator.
Implicit Types (config : Css.config) (st : CssTasks.state).
Implicit Types (o : Css.options) (p s : string).

(** The three task names are distinct, whatever prefix and suffix. *)
Lemma task_names_NoDup o : NoDup (CssTasks.task_names o).
Proof.
  destruct o as [p s]. unfold CssTasks.task_names. simpl.
  assert (∀ x y, x +:+ s ≠ y +:+ s → p +:+ x +:+ s ≠ p +:+ y +:+ s) as Hne.
  { intros x y Hxy Heq. apply Hxy. by apply (inj (String.append p)) in Heq. }
  repeat constructor.
  - intros [Heq|[Heq|Hnil]%elem_of_cons]%elem_of_cons.
    + revert Heq. apply Hne. discriminate.
    + revert Heq. apply Hne. discriminate.
    + by apply not_elem_of_nil in Hnil.
  - intros [Heq|Hnil]%elem_of_cons.
    + revert Heq. apply Hne. discriminate.
    + by apply not_elem_of_nil in Hnil.
  - apply not_elem_of_nil.
Qed.

Lemma generator_tasks config (options : option Css.options_arg) st :
  CssTasks.tasks (CssTasks.generator config options st)
  = <[Css.prefix (CssTasks.generator_options (CssTasks.generator config options st))
      +:+ "clear"
      +:+ Css.suffix (CssTasks.generator_options (CssTasks.generator config options st))
      := Runner.Fn (Runner.CssClear config)]>
    (<[Css.prefix (CssTasks.generator_options (CssTasks.generator config options st))
       +:+ "build"
       +:+ Css.suffix (CssTasks.generator_options (CssTasks.generator config options st))
       := Runner.Fn (Runner.CssBuild config)]>
     (<[Css.prefix (CssTasks.generator_options (CssTasks.generator config options st))
        +:+ "config"
        +:+ Css.suffix (CssTasks.generator_options (CssTasks.generator config options st))
        := Runner.Fn (Runner.CssConfig config)]>
      (CssTasks.tasks st))).
Proof. reflexivity. Qed.

(** The build task is found under its name after the call. *)
Lemma generator_build_lookup config (options : option Css.options_arg) st :
  CssTasks.tasks (CssTasks.generator config options st)
    !! (Css.prefix (CssTasks.generator_options (CssTasks.generator config options st))
        +:+ "build"
        +:+ Css.suffix (CssTasks.generator_options (CssTasks.generator config options st)))
  = Some (Runner.Fn (Runner.CssBuild config)).
Proof.
  pose proof (task_names_NoDup
                (CssTasks.generator_options (CssTasks.generator config options st)))
    as Hnd.
  unfold CssTasks.task_names in Hnd.
  apply NoDup_cons in Hnd as [_ Hnd]. apply NoDup_cons in Hnd as [Hbuild _].
  rewrite generator_tasks, lookup_insert_ne, lookup_insert_eq; [done|].
  intros Heq. apply Hbuild. rewrite <- Heq. by left.
Qed.

Lemma generator_options_assign config (options : option Css.options_arg) st :
  CssTasks.generator_options (CssTasks.generator config options st)
  = Css.assign (CssTasks.generator_options st)
               (default (Css.OptionsArg None None) options).
Proof. reflexivity. Qed.
End Generator.

(** C6, as the code has it: one call of the CSS tasks generator registers
    three tasks, under three distinct names prefix + 'config' + suffix,
    prefix + 'build' + suffix and prefix + 'clear' + suffix, and leaves
    every other name of the registry as it was. A prefix or suffix that
    the options do not supply is the one [generator.options] holds at the
    time of the call: 'css:' and the empty string when the module has
    just been loaded. *)
Theorem generator_registers_three_tasks
  (config : Css.config) (options : option Css.options_arg) (st : CssTasks.state) :
  let o := CssTasks.generator_options (CssTasks.generator config options st) in
  let tasks' := CssTasks.tasks (CssTasks.generator config options st) in
  Css.prefix o
  = default (Css.prefix (CssTasks.generator_options st)) (options ≫= Css.arg_prefix)
  ∧ Css.suffix o
    = default (Css.suffix (CssTasks.generator_options st)) (options ≫= Css.arg_suffix)
  ∧ (CssTasks.generator_options st = Css.defaults →
     Css.prefix o = default "css:" (options ≫= Css.arg_prefix)
     ∧ Css.suffix o = default EmptyString (options ≫= Css.arg_suffix))
  ∧ NoDup (CssTasks.task_names o)
  ∧ tasks' !! (Css.prefix o +:+ "config" +:+ Css.suffix o)
    = Some (Runner.Fn (Runner.CssConfig config))
  ∧ tasks' !! (Css.prefix o +:+ "build" +:+ Css.suffix o)
    = Some (Runner.Fn (Runner.CssBuild config))
  ∧ tasks' !! (Css.prefix o +:+ "clear" +:+ Css.suffix o)
    = Some (Runner.Fn (Runner.CssClear config))
  ∧ dom tasks' = dom (CssTasks.tasks st) ∪ list_to_set (CssTasks.task_names o)
  ∧ (∀ name, name ∉ CssTasks.task_names o →
       tasks' !! name = CssTasks.tasks st !! name).
Proof.
  intros o tasks'. subst tasks'.
  pose proof (task_names_NoDup o) as Hnd.
  assert (Css.prefix o +:+ "config" +:+ Css.suffix o
          ≠ Css.prefix o +:+ "build" +:+ Css.suffix o
          ∧ Css.prefix o +:+ "config" +:+ Css.suffix o
            ≠ Css.prefix o +:+ "clear" +:+ Css.suffix o
          ∧ Css.prefix o +:+ "build" +:+ Css.suffix o
            ≠ Css.prefix o +:+ "clear" +:+ Css.suffix o) as (H12 & H13 & H23).
  { unfold CssTasks.task_names in Hnd.
    apply NoDup_cons in Hnd as [H1 Hnd]. apply NoDup_cons in Hnd as [H2 _].
    repeat split; intros Heq.
    - apply H1. rewrite Heq. by left.
    - apply H1. rewrite Heq. right. by left.
    - apply H2. rewrite Heq. by left. }
  rewrite generator_tasks. fold o.
  split; [|split; [|split; [|split; [|split; [|split; [|split; [|split]]]]]]].
  - subst o. rewrite generator_options_assign. by destruct options.
  - subst o. rewrite generator_options_assign. by destruct options.
  - intros Hdef. subst o. rewrite generator_options_assign, Hdef.
    by destruct options.
  - done.
  - by rewrite !lookup_insert_ne, lookup_insert_eq by done.
  - by rewrite lookup_insert_ne, lookup_insert_eq by done.
  - by rewrite lookup_insert_eq.
  - rewrite !dom_insert_L. unfold CssTasks.task_names. set_solver.
  - intros name Hname. unfold CssTasks.task_names in Hname.
    rewrite !lookup_insert_ne; [done|..]; intros <-; apply Hname.
    + by left.
    + right. by left.
    + right. right. by left.
Qed.

Lemma generator_registers_witness :
  Css.prefix (CssTasks.generator_options
                (CssTasks.generator Sample.c480
                   (Some (Css.OptionsArg None (Some ":480"))) CssTasks.initial))
  = "css:"
  ∧ dom (CssTasks.tasks
           (CssTasks.generator Sample.c480
              (Some (Css.OptionsArg None (Some ":480"))) CssTasks.initial))
    = list_to_set ["css:config:480"; "css:build:480"; "css:clear:480"].
Proof.
  destruct (generator_registers_three_tasks Sample.c480
              (Some (Css.OptionsArg None (Some ":480"))) CssTasks.initial)
    as (_ & _ & Hinit & _ & _ & _ & _ & Hdom & _).
  destruct (Hinit eq_refl) as [Hprefix _].
  split; [exact Hprefix|].
  rewrite Hdom. simpl. by rewrite dom_empty_L, (left_id_L ∅ (∪)).
Defined.

(** C6 as stated fails: once a call has supplied the prefix 'sdk:', a
    call without options registers sdk:config, sdk:build and sdk:clear,
    and nothing under the prefix 'css:'. *)
Lemma generator_defaults_not_restored :
  ¬ (∀ (config : Css.config) (options : option Css.options_arg) (st : CssTasks.state),
       dom (CssTasks.tasks (CssTasks.generator config options st))
       = dom (CssTasks.tasks st)
         ∪ list_to_set
             (CssTasks.task_names
                (Css.Options (default "css:" (options ≫= Css.arg_prefix))
                             (default EmptyString (options ≫= Css.arg_suffix))))).
Proof.
  intros Hall.
  specialize (Hall Sample.c480 None
                (CssTasks.generator Sample.c480
                   (Some (Css.OptionsArg (Some "sdk:") None)) CssTasks.initial)).
  assert ("css:config" ∈ dom (CssTasks.tasks
            (CssTasks.generator Sample.c480 None
              (CssTasks.generator Sample.c480
                 (Some (Css.OptionsArg (Some "sdk:") None)) CssTasks.initial))))
    as Hin.
  { rewrite Hall. apply elem_of_union. right. apply elem_of_list_to_set. by left. }
  revert Hin. rewrite !generator_tasks, !generator_options_assign. simpl.
  rewrite !dom_insert_L, dom_empty_L. set_solver.
Qed.

(** C9: the options of a call are assigned into [generator.options]
    itself, and the object stays as assigned: a prefix or a suffix
    supplied in one call is what a later call that omits it uses, for
    the names it registers too. *)
Theorem generator_options_persist
  (config1 config2 : Css.config) (first later : Css.options_arg)
  (st : CssTasks.state) :
  let st1 := CssTasks.generator config1 (Some first) st in
  let st2 := CssTasks.generator config2 (Some later) st1 in
  CssTasks.generator_options st1 = Css.assign (CssTasks.generator_options st) first
  ∧ CssTasks.generator_options (CssTasks.generator config2 None st1)
    = CssTasks.generator_options st1
  ∧ (∀ p, Css.arg_prefix first = Some p → Css.arg_prefix later = None →
       Css.prefix (CssTasks.generator_options st2) = p
       ∧ CssTasks.tasks st2
           !! (p +:+ "build" +:+ Css.suffix (CssTasks.generator_options st2))
         = Some (Runner.Fn (Runner.CssBuild config2)))
  ∧ (∀ s, Css.arg_suffix first = Some s → Css.arg_suffix later = None →
       Css.suffix (CssTasks.generator_options st2) = s
       ∧ CssTasks.tasks st2
           !! (Css.prefix (CssTasks.generator_options st2) +:+ "build" +:+ s)
         = Some (Runner.Fn (Runner.CssBuild config2))).
Proof.
  intros st1 st2.
  pose proof (generator_build_lookup config2 (Some later) st1) as Hbuild.
  fold st2 in Hbuild.
  split; [reflexivity|]. split; [|split].
  - rewrite generator_options_assign. simpl.
    by destruct (CssTasks.generator_options st1).
  - intros p Hfirst Hlater.
    assert (Css.prefix (CssTasks.generator_options st2) = p) as Hprefix.
    { subst st2 st1. rewrite !generator_options_assign. simpl.
      by rewrite Hlater, Hfirst. }
    split; [done|]. by rewrite <- Hprefix.
  - intros s Hfirst Hlater.
    assert (Css.suffix (CssTasks.generator_options st2) = s) as Hsuffix.
    { subst st2 st1. rewrite !generator_options_assign. simpl.
      by rewrite Hlater, Hfirst. }
    split; [done|]. by rewrite <- Hsuffix.
Qed.

Lemma generator_options_persist_witness :
  Css.prefix (CssTasks.generator_options
                (CssTasks.generator Sample.c480 (Some (Css.OptionsArg None (Some ":480")))
                   (CssTasks.generator Sample.c480
                      (Some (Css.OptionsArg (Some "sdk:") None)) CssTasks.initial)))
  = "sdk:"
  ∧ CssTasks.tasks
      (CssTasks.generator Sample.c480 (Some (Css.OptionsArg None (Some ":480")))
         (CssTasks.generator Sample.c480
            (Some (Css.OptionsArg (Some "sdk:") None)) CssTasks.initial))
    !! "sdk:build:480"
    = Some (Runner.Fn (Runner.CssBuild Sample.c480)).
Proof.
  destruct (generator_options_persist Sample.c480 Sample.c480
              (Css.OptionsArg (Some "sdk:") None) (Css.OptionsArg None (Some ":480"))
              CssTasks.initial) as (_ & _ & Hprefix & _).
  destruct (Hprefix "sdk:" eq_refl eq_refl) as [Hp Hbuild].
  split; [exact Hp|exact Hbuild].
Defined.

(** ** The registry a package generator leaves *)

Section Registry.
Context (G : Package.generators) (target : string) (develop : bool).
Implicit Types (st : CssTasks.state) (R k : string) (rs : list string).

Lemma per_resolution_tasks st R :
  ∃ fromSass config,
    fromSass = Package.sass G
                 (Package.SassConfig
                    (Path.join [Package.source; "sass";
                                (if develop then "develop." else "release.")
                                +:+ R +:+ ".scss"])
                    (Path.join [target; "css"; "app." +:+ R +:+ ".css"])
                    (if develop then "nested" else "compressed")
                    (Path.join [target; "css"; "app." +:+ R +:+ ".map"]))
                 (":" +:+ R)
    ∧ CssTasks.tasks (Package.per_resolution G target develop st R)
      = fromSass
        ∪ CssTasks.tasks
            (CssTasks.generator config (Some (Css.OptionsArg None (Some (":" +:+ R)))) st).
Proof. by eexists _, _. Qed.

Lemma per_resolution_prefix st R :
  Css.prefix (CssTasks.generator_options (Package.per_resolution G target develop st R))
  = Css.prefix (CssTasks.generator_options st).
Proof. reflexivity. Qed.

(** A resolution only adds tasks. *)
Lemma per_resolution_mono st R k :
  is_Some (CssTasks.tasks st !! k) →
  is_Some (CssTasks.tasks (Package.per_resolution G target develop st R) !! k).
Proof.
  intros Hk. destruct (per_resolution_tasks st R) as (fromSass & config & _ & ->).
  apply lookup_union_is_Some. right. rewrite generator_tasks.
  rewrite !lookup_insert_is_Some'. auto.
Qed.

Lemma per_resolution_registers st R :
  Css.prefix (CssTasks.generator_options st) = "css:" →
  (∀ cfg suffix, is_Some (Package.sass G cfg suffix !! ("sass:build" +:+ suffix))) →
  is_Some (CssTasks.tasks (Package.per_resolution G target develop st R)
             !! ("sass:build:" +:+ R))
  ∧ is_Some (CssTasks.tasks (Package.per_resolution G target develop st R)
               !! ("css:build:" +:+ R)).
Proof.
  intros Hprefix Hsass.
  destruct (per_resolution_tasks st R) as (fromSass & config & HfromSass & ->).
  split; apply lookup_union_is_Some.
  - left. rewrite HfromSass. apply (Hsass _ (":" +:+ R)).
  - right.
    pose proof (generator_build_lookup config
                  (Some (Css.OptionsArg None (Some (":" +:+ R)))) st) as Hbuild.
    assert (Css.prefix (CssTasks.generator_options
                          (CssTasks.generator config
                             (Some (Css.OptionsArg None (Some (":" +:+ R)))) st))
            = "css:") as Hp by exact Hprefix.
    assert (Css.suffix (CssTasks.generator_options
                          (CssTasks.generator config
                             (Some (Css.OptionsArg None (Some (":" +:+ R)))) st))
            = ":" +:+ R) as Hs by reflexivity.
    rewrite Hp, Hs in Hbuild.
    change ("css:" +:+ "build" +:+ ":" +:+ R) with ("css:build:" +:+ R) in Hbuild.
    by rewrite Hbuild.
Qed.

Lemma resolutions_mono rs st k :
  is_Some (CssTasks.tasks st !! k) →
  is_Some (CssTasks.tasks (foldl (Package.per_resolution G target develop) st rs) !! k).
Proof.
  revert st. induction rs as [|R rs IH]; intros st Hk; [done|].
  simpl. by apply IH, per_resolution_mono.
Qed.

(** After the loop over the resolutions, each of them has its sass and
    css build task. *)
Lemma resolutions_registered rs st R :
  R ∈ rs →
  Css.prefix (CssTasks.generator_options st) = "css:" →
  (∀ cfg suffix, is_Some (Package.sass G cfg suffix !! ("sass:build" +:+ suffix))) →
  is_Some (CssTasks.tasks (foldl (Package.per_resolution G target develop) st rs)
             !! ("sass:build:" +:+ R))
  ∧ is_Some (CssTasks.tasks (foldl (Package.per_resolution G target develop) st rs)
               !! ("css:build:" +:+ R)).
Proof.
  intros HR Hprefix Hsass. revert st Hprefix.
  induction rs as [|R' rs IH]; intros st Hprefix.
  - by apply not_elem_of_nil in HR.
  - simpl. apply elem_of_cons in HR as [->|HR].
    + destruct (per_resolution_registers st R' Hprefix Hsass) as [H1 H2].
      split; by apply resolutions_mono.
    + apply IH; [done|]. by rewrite per_resolution_prefix.
Qed.
End Registry.

Section MainTasks.
Implicit Types (target : string) (tasks : gmap string Runner.node).

Lemma main_tasks_other target tasks k :
  k ∉ PackageGenerator.main_names →
  PackageGenerator.main_tasks target tasks !! k = tasks !! k.
Proof.
  intros Hk. unfold PackageGenerator.main_tasks, Runner.task.
  rewrite !lookup_insert_ne; [done|..]; intros <-; apply Hk;
    apply (bool_decide_unpack _); by vm_compute.
Qed.

Lemma main_tasks_composites target tasks :
  PackageGenerator.main_tasks target tasks !! "build"
  = Some PackageGenerator.build_task
  ∧ PackageGenerator.main_tasks target tasks !! "watch"
    = Some (Runner.Fn (Runner.Watch "src" ["css:build"; "gettext:prepare"]))
  ∧ PackageGenerator.main_tasks target tasks !! "serve" = Some Package.serve
  ∧ PackageGenerator.main_tasks target tasks !! "default" = Some Package.default_task
  ∧ PackageGenerator.main_tasks target tasks !! "sass:build" = Some Package.sass_build
  ∧ PackageGenerator.main_tasks target tasks !! "css:build" = Some Package.css_build.
Proof.
  unfold PackageGenerator.main_tasks, Runner.task.
  repeat split; by rewrite ?lookup_insert_ne, lookup_insert_eq by done.
Qed.

Lemma resolution_names_other R :
  R ∈ Package.resolutions →
  (("sass:build:" +:+ R) ∉ PackageGenerator.main_names)
  ∧ (("css:build:" +:+ R) ∉ PackageGenerator.main_names).
Proof.
  unfold Package.resolutions. rewrite !elem_of_cons.
  intros [->|[->|[->|[->|H]]]]; [..|by apply not_elem_of_nil in H];
    split; apply (bool_decide_unpack _); by vm_compute.
Qed.
End MainTasks.

(** The registry the generator of part_000 leaves: the main tasks over
    the tasks of the external generators and, for an application, of the
    resolutions. *)
Lemma package_generator_shape (G : Package.generators) (E : Package.env)
  (config : Package.config) (st st' : CssTasks.state) :
  fst <$> PackageGenerator.generator G E config st = Some st' →
  ∃ target develop base withPug,
    CssTasks.tasks st'
    = PackageGenerator.main_tasks target
        (CssTasks.tasks
           (if bool_decide (Package.type config = Some "app")
            then foldl (Package.per_resolution G target develop)
                       (CssTasks.State withPug (CssTasks.generator_options st))
                       Package.resolutions
            else CssTasks.State base (CssTasks.generator_options st))).
Proof.
  unfold PackageGenerator.generator. intros Hrun.
  destruct (Package.target_dir _) as [target|]; [|done].
  destruct (Package.platform_name _) as [platformName|]; [|done].
  destruct (bool_decide (Package.type config = Some "app")).
  - destruct (Package.package_data E) as [package|]; [|done].
    injection Hrun as <-. eexists target, _, ∅, _. reflexivity.
  - injection Hrun as <-. eexists target, false, _, ∅. reflexivity.
Qed.

Lemma package_generator_default (G : Package.generators) (E : Package.env)
  (config : Package.config) (st st' : CssTasks.state) :
  fst <$> PackageGenerator.generator G E config st = Some st' →
  CssTasks.tasks st' !! "default" = Some Package.default_task.
Proof.
  intros (target & develop & base & withPug & ->)%package_generator_shape.
  apply main_tasks_composites.
Qed.

(** C7, as the code has it: after the generator of part_000 has run, the
    registry holds build, watch, serve and default, and sass:build and
    css:build as the parallel composition of their four per-resolution
    names. The per-resolution tasks sass:build:R and css:build:R are
    registered for R in 480, 576, 720 and 1080 when [config.type] is
    'app', the CSS generator still has the prefix 'css:', and the sass
    generator names its build task 'sass:build' followed by the suffix it
    is given. *)
Theorem package_generator_registry
  (G : Package.generators) (E : Package.env) (config : Package.config)
  (st st' : CssTasks.state) :
  fst <$> PackageGenerator.generator G E config st = Some st' →
  CssTasks.tasks st' !! "build"
  = Some (Runner.Parallel
            [Runner.Ref "pug:build"; Runner.Ref "sass:build"; Runner.Ref "css:build";
             Runner.Ref "webpack:build"; Runner.Ref "copy";
             Runner.Serial [Runner.Ref "gettext:prepare"; Runner.Ref "gettext:build"]])
  ∧ CssTasks.tasks st' !! "watch"
    = Some (Runner.Fn (Runner.Watch "src" ["css:build"; "gettext:prepare"]))
  ∧ CssTasks.tasks st' !! "serve"
    = Some (Runner.Parallel
              [Runner.Ref "static:start"; Runner.Ref "livereload:start";
               Runner.Ref "repl:start"; Runner.Ref "notify:start"])
  ∧ CssTasks.tasks st' !! "default"
    = Some (Runner.Serial
              [Runner.Ref "build";
               Runner.Parallel [Runner.Ref "watch"; Runner.Ref "serve"]])
  ∧ CssTasks.tasks st' !! "sass:build"
    = Some (Runner.Parallel
              [Runner.Ref "sass:build:480"; Runner.Ref "sass:build:576";
               Runner.Ref "sass:build:720"; Runner.Ref "sass:build:1080"])
  ∧ CssTasks.tasks st' !! "css:build"
    = Some (Runner.Parallel
              [Runner.Ref "css:build:480"; Runner.Ref "css:build:576";
               Runner.Ref "css:build:720"; Runner.Ref "css:build:1080"])
  ∧ (Package.type config = Some "app" →
     Css.prefix (CssTasks.generator_options st) = "css:" →
     (∀ cfg suffix, is_Some (Package.sass G cfg suffix !! ("sass:build" +:+ suffix))) →
     ∀ R, R ∈ ["480"; "576"; "720"; "1080"] →
       is_Some (CssTasks.tasks st' !! ("sass:build:" +:+ R))
       ∧ is_Some (CssTasks.tasks st' !! ("css:build:" +:+ R))).
Proof.
  intros (target & develop & base & withPug & ->)%package_generator_shape.
  destruct (main_tasks_composites target
              (CssTasks.tasks
                 (if bool_decide (Package.type config = Some "app")
                  then foldl (Package.per_resolution G target develop)
                             (CssTasks.State withPug (CssTasks.generator_options st))
                             Package.resolutions
                  else CssTasks.State base (CssTasks.generator_options st))))
    as (Hb & Hw & Hs & Hd & Hsb & Hcb).
  repeat (split; [assumption|]).
  intros Happ Hprefix Hsass R HR.
  rewrite bool_decide_eq_true_2 by done.
  destruct (resolution_names_other R HR) as [Hn1 Hn2].
  rewrite !main_tasks_other by done.
  by apply resolutions_registered.
Qed.

Lemma package_generator_registry_witness :
  ∃ st',
    fst <$> PackageGenerator.generator Sample.generators Sample.env Sample.app
              CssTasks.initial = Some st'
    ∧ CssTasks.tasks st' !! "default"
      = Some (Runner.Serial
                [Runner.Ref "build";
                 Runner.Parallel [Runner.Ref "watch"; Runner.Ref "serve"]])
    ∧ is_Some (CssTasks.tasks st' !! "sass:build:720")
    ∧ is_Some (CssTasks.tasks st' !! "css:build:720").
Proof.
  eexists. split; [reflexivity|].
  destruct (package_generator_registry Sample.generators Sample.env Sample.app
              CssTasks.initial _ eq_refl)
    as (_ & _ & _ & Hdefault & _ & _ & Hres).
  split; [exact Hdefault|].
  apply (Hres eq_refl eq_refl).
  - intros cfg suffix. unfold Sample.generators, Sample.ext. simpl.
    rewrite lookup_insert_eq. by eexists.
  - apply list_elem_of_In. simpl. auto.
Defined.

(** C7 as stated fails: for a library package the generator of part_000
    registers the composite tasks but none of the per-resolution ones. *)
Lemma library_package_has_no_resolution_tasks :
  ¬ (∀ (config : Package.config) (st' : CssTasks.state),
       fst <$> PackageGenerator.generator Sample.generators Sample.env config
                 CssTasks.initial = Some st' →
       ∀ R, R ∈ ["480"; "576"; "720"; "1080"] →
         is_Some (CssTasks.tasks st' !! ("sass:build:" +:+ R))
         ∧ is_Some (CssTasks.tasks st' !! ("css:build:" +:+ R))).
Proof.
  intros Hall.
  destruct (Hall Sample.lib _ eq_refl "480") as [_ Hcss].
  { by left. }
  revert Hcss. apply (bool_decide_unpack _). by vm_compute.
Qed.

(** ** Serial composition *)

Section Run.
Context (tasks : gmap string Runner.node) (finish : Runner.body → Runner.result).
Implicit Types (run : Runner.node → option (list Runner.body * Runner.result)).
Implicit Types (n step : Runner.node) (steps before after : list Runner.node).

(** A sequence ends with the first step that does not succeed; the steps
    after it contribute nothing. *)
Lemma run_serial_stops run before step after
  (befores : list (list Runner.body)) (started : list Runner.body)
  (r : Runner.result) :
  Forall2 (fun n s => run n = Some (s, Runner.Ok)) before befores →
  run step = Some (started, r) → r ≠ Runner.Ok →
  Runner.run_serial run (before ++ step :: after)
  = Some (concat befores ++ started, r).
Proof.
  intros Hbefore Hstep Hr.
  induction Hbefore as [|n s before befores Hn _ IH].
  - simpl. rewrite Hstep. by destruct r.
  - simpl. rewrite Hn, IH. by rewrite app_assoc.
Qed.

Lemma run_serial_mono run run' steps res :
  (∀ n res', run n = Some res' → run' n = Some res') →
  Runner.run_serial run steps = Some res →
  Runner.run_serial run' steps = Some res.
Proof.
  intros Hmono. revert res. induction steps as [|n steps IH]; intros res; [done|].
  simpl. destruct (run n) as [[started r]|] eqn:Hn; [|done].
  rewrite (Hmono _ _ Hn). destruct r; try done.
  destruct (Runner.run_serial run steps) as [[started' r']|]; [|done].
  by rewrite (IH _ eq_refl).
Qed.

Lemma run_parallel_mono run run' steps res :
  (∀ n res', run n = Some res' → run' n = Some res') →
  Runner.run_parallel run steps = Some res →
  Runner.run_parallel run' steps = Some res.
Proof.
  intros Hmono. revert res. induction steps as [|n steps IH]; intros res; [done|].
  simpl. destruct (run n) as [[started r]|] eqn:Hn; [|done].
  rewrite (Hmono _ _ Hn).
  destruct (Runner.run_parallel run steps) as [[started' r']|]; [|done].
  by rewrite (IH _ eq_refl).
Qed.

(** More fuel does not change a result. *)
Lemma run_fuel_S fuel n res :
  Runner.run fuel tasks finish n = Some res →
  Runner.run (S fuel) tasks finish n = Some res.
Proof.
  revert n res. induction fuel as [|fuel IH]; intros n res; [done|].
  intros Hrun. destruct n as [name|b|members|steps].
  - simpl in Hrun |- *. destruct (tasks !! name) as [n'|]; [|done]. by apply IH.
  - done.
  - simpl in Hrun. change (Runner.run (S (S fuel)) tasks finish (Runner.Parallel members))
      with (Runner.run_parallel (Runner.run (S fuel) tasks finish) members).
    by apply (run_parallel_mono (Runner.run fuel tasks finish)).
  - simpl in Hrun. change (Runner.run (S (S fuel)) tasks finish (Runner.Serial steps))
      with (Runner.run_serial (Runner.run (S fuel) tasks finish) steps).
    by apply (run_serial_mono (Runner.run fuel tasks finish)).
Qed.

Lemma run_fuel_le fuel fuel' n res :
  (fuel ≤ fuel')%nat →
  Runner.run fuel tasks finish n = Some res →
  Runner.run fuel' tasks finish n = Some res.
Proof. induction 1; [done|]. intros. by apply run_fuel_S, IHle. Qed.
End Run.

(** C8: a serial composite stops at the first failing step. When the
    steps before a step succeed and that step fails, the sequence fails
    having started the functions of those steps only, whatever steps come
    after it. So the default task of part_000 starts neither watch nor
    serve when build fails, and the sequence inside build does not start
    gettext:build when gettext:prepare fails. *)
Theorem serial_stops_at_first_failure :
  (∀ tasks finish fuel fuel' before step after befores started,
     Forall2 (fun n s => Runner.run fuel tasks finish n = Some (s, Runner.Ok))
             before befores →
     Runner.run fuel tasks finish step = Some (started, Runner.Failed) →
     (fuel < fuel')%nat →
     Runner.run fuel' tasks finish (Runner.Serial (before ++ step :: after))
     = Some (concat befores ++ started, Runner.Failed))
  ∧ (∀ G E config st st' finish fuel started,
       fst <$> PackageGenerator.generator G E config st = Some st' →
       Runner.run fuel (CssTasks.tasks st') finish (Runner.Ref "build")
       = Some (started, Runner.Failed) →
       Runner.run (S (S fuel)) (CssTasks.tasks st') finish (Runner.Ref "default")
       = Some (started, Runner.Failed))
  ∧ (∀ tasks finish fuel started,
       Runner.run fuel tasks finish (Runner.Ref "gettext:prepare")
       = Some (started, Runner.Failed) →
       Runner.run (S fuel) tasks finish
         (Runner.Serial [Runner.Ref "gettext:prepare"; Runner.Ref "gettext:build"])
       = Some (started, Runner.Failed)).
Proof.
  assert (∀ tasks finish fuel fuel' before step after befores started,
     Forall2 (fun n s => Runner.run fuel tasks finish n = Some (s, Runner.Ok))
             before befores →
     Runner.run fuel tasks finish step = Some (started, Runner.Failed) →
     (fuel < fuel')%nat →
     Runner.run fuel' tasks finish (Runner.Serial (before ++ step :: after))
     = Some (concat befores ++ started, Runner.Failed)) as Hserial.
  { intros tasks finish fuel fuel' before step after befores started Hb Hs Hlt.
    apply (run_fuel_le tasks finish (S fuel)); [lia|].
    change (Runner.run (S fuel) tasks finish (Runner.Serial (before ++ step :: after)))
      with (Runner.run_serial (Runner.run fuel tasks finish) (before ++ step :: after)).
    by apply run_serial_stops. }
  split; [exact Hserial|]. split.
  - intros G E config st st' finish fuel started Hgen Hbuild.
    pose proof (package_generator_default G E config st st' Hgen) as Hdefault.
    change (Runner.run (S (S fuel)) (CssTasks.tasks st') finish (Runner.Ref "default"))
      with (match CssTasks.tasks st' !! "default" with
            | Some n' => Runner.run (S fuel) (CssTasks.tasks st') finish n'
            | None => Some ([], Runner.Failed)
            end).
    rewrite Hdefault. unfold Package.default_task.
    apply (Hserial _ _ fuel (S fuel) [] (Runner.Ref "build") _ [] started);
      [constructor|done|lia].
  - intros tasks finish fuel started Hprepare.
    apply (Hserial _ _ fuel (S fuel) [] (Runner.Ref "gettext:prepare") _ [] started);
      [constructor|done|lia].
Qed.

Lemma serial_stops_witness :
  Runner.run 8 Sample.registry Sample.finish (Runner.Ref "default")
  = Some ([Runner.External "pug" "pug:build";
           Runner.External "sass" "sass:build:480";
           Runner.External "sass" "sass:build:576";
           Runner.External "sass" "sass:build:720";
           Runner.External "sass" "sass:build:1080";
           Runner.CssBuild (Css.Config "480" "build/mag/css/sdk.480.css" "develop");
           Runner.CssBuild (Css.Config "576" "build/mag/css/sdk.576.css" "develop");
           Runner.CssBuild (Css.Config "720" "build/mag/css/sdk.720.css" "develop");
           Runner.CssBuild (Css.Config "1080" "build/mag/css/sdk.1080.css" "develop");
           Runner.External "webpack" "webpack:build";
           Runner.Copy "src/img" "build/mag/img";
           Runner.GettextPrepare "src/js/gettext.js";
           Runner.External "gettext" "gettext:build"],
          Runner.Failed).
Proof.
  destruct serial_stops_at_first_failure as (_ & Hdefault & _).
  apply (Hdefault Sample.generators Sample.env Sample.app CssTasks.initial _
           Sample.finish 6%nat).
  - reflexivity.
  - vm_compute. reflexivity.
Defined.


(** * Further properties of the code *)

(** ** css.js: build, whatever the order of completion *)

Section BuildMore.
Implicit Types (w : Css.world) (c : Css.config) (p : Css.package).

(** Either every outcome is a result, or some task reports an error. *)
Lemma outcomes_cases {A} (outcomes : list (Async.outcome A)) :
  (∃ datas, outcomes = inr <$> datas)
  ∨ (∃ j e, outcomes !! j = Some (inl e)).
Proof.
  induction outcomes as [|[e|a] outcomes IH].
  - left. by exists [].
  - right. by exists 0%nat, e.
  - destruct IH as [[datas ->]|(j & e & Hj)].
    + left. by exists (a :: datas).
    + right. by exists (S j), e.
Qed.

Lemma all_read_results w c p :
  Variation.all_read w c p ↔
  ∃ contents, Css.readFile w <$> (Css.css_path c <$> Css.modules p) = inr <$> contents.
Proof.
  unfold Variation.all_read. generalize (Css.modules p). intros ms. split.
  - induction 1 as [|m ms Hm _ [contents IH]]; [by exists []|].
    destruct (Css.readFile w (Css.css_path c m)) as [e|a] eqn:Hr; [done|].
    exists (a :: contents). by rewrite !fmap_cons, Hr, IH.
  - intros [contents Hc]. revert contents Hc.
    induction ms as [|m ms IH]; intros contents Hc; [constructor|].
    destruct contents as [|a contents]; [done|].
    rewrite !fmap_cons in Hc. injection Hc as Hm Hrest.
    constructor; [by rewrite Hm|by eapply IH].
Qed.

(** The trace of [build] in the two cases. *)
Lemma build_trace w c p :
  Css.package_json w = Some p →
  Async.schedule (length (Css.modules p)) (Css.completion w) →
  (∃ contents,
     Css.readFile w <$> (Css.css_path c <$> Css.modules p) = inr <$> contents
     ∧ Css.build w c
       = (Css.ReadFile <$> (Css.css_path c <$> Css.modules p))
         ++ [Css.WriteFile (Css.outFile c) (String.concat JS.LF contents);
             Css.Done (Css.write w [(Css.outFile c, String.concat JS.LF contents)])])
  ∨ (¬ Variation.all_read w c p
     ∧ Css.build w c = Css.ReadFile <$> (Css.css_path c <$> Css.modules p)).
Proof.
  intros Hp Hsched.
  destruct (outcomes_cases (Css.readFile w <$> (Css.css_path c <$> Css.modules p)))
    as [[contents Hc]|(j & e & Hj)].
  - left. exists contents. split; [done|].
    unfold Css.build. rewrite Hp. f_equal.
    change (map (Css.readFile w) (map (Css.css_path c) (Css.modules p)))
      with (Css.readFile w <$> (Css.css_path c <$> Css.modules p)).
    rewrite Hc, parallel_all_ok.
    + simpl. unfold Css.tools_write. simpl. by rewrite join_full.
    + assert (length contents = length (Css.modules p)) as ->; [|done].
      apply (f_equal length) in Hc. by rewrite !length_fmap in Hc.
  - right. split.
    + intros [contents Hc]%all_read_results. rewrite Hc in Hj.
      rewrite list_lookup_fmap in Hj. by destruct (contents !! j).
    + rewrite !list_lookup_fmap in Hj.
      destruct (Css.modules p !! j) as [m|] eqn:Hm; [|done]. simpl in Hj.
      apply (build_failed_read w c p m e); [done|done| |congruence].
      apply list_elem_of_lookup. by exists j.
Qed.
End BuildMore.

(** X1: what [build] does is the same for every order in which the
    reads complete: the reads, and then either the one write followed by
    [done], or nothing. *)
Theorem build_schedule_independent
  (w : Css.world) (c : Css.config) (p : Css.package) (order : list nat) :
  Css.package_json w = Some p →
  Async.schedule (length (Css.modules p)) (Css.completion w) →
  Async.schedule (length (Css.modules p)) order →
  Css.build (Variation.reschedule w order) c = Css.build w c.
Proof.
  intros Hp Hw Ho.
  destruct (build_trace w c p Hp Hw) as [(contents & Hc & ->)|[Hno ->]];
    destruct (build_trace (Variation.reschedule w order) c p Hp Ho)
      as [(contents' & Hc' & ->)|[Hno' ->]]; simpl in *.
  - rewrite Hc in Hc'. apply (inj (fmap inr)) in Hc' as <-. done.
  - exfalso. apply Hno'. apply all_read_results. by exists contents.
  - exfalso. apply Hno. apply all_read_results. by exists contents'.
  - done.
Qed.

Lemma build_schedule_independent_witness :
  Css.build (Variation.reschedule Sample.world [1; 2; 0]%nat) Sample.c480
  = Css.build Sample.world Sample.c480.
Proof.
  apply (build_schedule_independent Sample.world Sample.c480 Sample.package).
  - reflexivity.
  - unfold Async.schedule. apply (bool_decide_unpack _). vm_compute. reflexivity.
  - unfold Async.schedule. apply (bool_decide_unpack _). vm_compute. reflexivity.
Defined.

(** X2: [build] invokes [done] exactly when every selected style sheet
    can be read, and then once, with what [tools.write] reports; when a
    read fails, [done] is not invoked at all. *)
Theorem build_reports_iff_all_read
  (w : Css.world) (c : Css.config) (p : Css.package) :
  Css.package_json w = Some p →
  Async.schedule (length (Css.modules p)) (Css.completion w) →
  (Variation.all_read w c p →
   ∃ data, filter (fun e => Css.is_done e = true) (Css.build w c)
           = [Css.Done (Css.write w [(Css.outFile c, data)])])
  ∧ (¬ Variation.all_read w c p →
     filter (fun e => Css.is_done e = true) (Css.build w c) = []).
Proof.
  intros Hp Hsched.
  assert (∀ paths, filter (fun e => Css.is_done e = true) (Css.ReadFile <$> paths) = [])
    as Hreads.
  { intros paths. apply filter_nothing.
    intros e (path & -> & _)%list_elem_of_fmap. done. }
  destruct (build_trace w c p Hp Hsched) as [(contents & Hc & ->)|[Hno ->]].
  - split.
    + intros _. exists (String.concat JS.LF contents).
      by rewrite filter_app, Hreads.
    + intros Hno. exfalso. apply Hno. apply all_read_results. by exists contents.
  - split; [done|]. intros _. apply Hreads.
Qed.

Lemma build_reports_witness :
  (∃ data, filter (fun e => Css.is_done e = true) (Css.build Sample.world Sample.c480)
           = [Css.Done (Css.write Sample.world [(Css.outFile Sample.c480, data)])])
  ∧ filter (fun e => Css.is_done e = true)
           (Css.build Sample.world_missing Sample.c480) = [].
Proof.
  split.
  - apply (build_reports_iff_all_read Sample.world Sample.c480 Sample.package).
    + reflexivity.
    + unfold Async.schedule. apply (bool_decide_unpack _). vm_compute. reflexivity.
    + unfold Variation.all_read. apply (bool_decide_unpack _). vm_compute. reflexivity.
  - apply (build_reports_iff_all_read Sample.world_missing Sample.c480 Sample.package).
    + reflexivity.
    + unfold Async.schedule. apply (bool_decide_unpack _). vm_compute. reflexivity.
    + unfold Variation.all_read. apply (bool_decide_unpack _). vm_compute. reflexivity.
Defined.

(** X3: [build] looks at package.json only through the names that
    contain "-component-", in the order they are declared: two
    package.json files with the same such names, in the same order, give
    the same reads and the same output, whatever else they list. *)
Theorem build_depends_on_components_only
  (w : Css.world) (c : Css.config) (p p' : Css.package) :
  filter (fun m => Css.is_component m = true) (Css.listed p)
  = filter (fun m => Css.is_component m = true) (Css.listed p') →
  Css.build (Variation.repackage w p) c = Css.build (Variation.repackage w p') c.
Proof.
  intros Hsame.
  assert (Css.modules p = Css.modules p') as Hmodules.
  { by rewrite !modules_listed, Hsame. }
  unfold Css.build, Variation.repackage.
  cbn [Css.package_json Css.readFile Css.completion]. by rewrite Hmodules.
Qed.

Lemma build_depends_on_components_witness :
  Css.build (Variation.repackage Sample.world Sample.package) Sample.c480
  = Css.build
      (Variation.repackage Sample.world
         (Css.Package (Some [("stb-component-page", "^2.0.0")])
                      (Some [("eslint", "^8.0.0"); ("mag-component-panel", "1.x");
                             ("42", "0.0.1")])))
      Sample.c480.
Proof.
  apply (build_depends_on_components_only Sample.world Sample.c480).
  reflexivity.
Defined.

(** ** css.js: repeated calls of the tasks generator *)

Section GeneratorMore.
Implicit Types (config : Css.config) (st : CssTasks.state) (p s : string).

(** With one prefix, the names of two different suffixes never meet. *)
Lemma task_names_disjoint p s1 s2 name :
  s1 ≠ s2 →
  name ∈ CssTasks.task_names (Css.Options p s1) →
  name ∉ CssTasks.task_names (Css.Options p s2).
Proof.
  intros Hs. unfold CssTasks.task_names. simpl.
  assert (∀ x y, x +:+ s1 ≠ y +:+ s2 → p +:+ x +:+ s1 ≠ p +:+ y +:+ s2) as Hne.
  { intros x y Hxy Heq. apply Hxy. by apply (inj (String.append p)) in Heq. }
  assert (∀ x, p +:+ x +:+ s1 ≠ p +:+ x +:+ s2) as Hsame.
  { intros x Heq. apply Hs.
    apply (inj (String.append p)) in Heq. by apply (inj (String.append x)) in Heq. }
  rewrite !elem_of_cons.
  intros [->|[->|[->|Hnil]]]; [| | |by apply not_elem_of_nil in Hnil];
    intros [Heq|[Heq|[Heq|Hnil]]];
    try (by apply not_elem_of_nil in Hnil);
    try (by apply Hsame in Heq);
    revert Heq; apply Hne; discriminate.
Qed.
End GeneratorMore.

(** X4: a second call of the CSS tasks generator with the same config
    and options changes nothing: the registry and [generator.options] are
    as the first call left them. *)
Theorem generator_idempotent
  (config : Css.config) (options : option Css.options_arg) (st : CssTasks.state) :
  CssTasks.generator config options (CssTasks.generator config options st)
  = CssTasks.generator config options st.
Proof.
  assert (Css.assign (Css.assign (CssTasks.generator_options st)
                        (default (Css.OptionsArg None None) options))
                     (default (Css.OptionsArg None None) options)
          = Css.assign (CssTasks.generator_options st)
                       (default (Css.OptionsArg None None) options)) as Hopts.
  { destruct options as [[[p|] [s|]]|]; by destruct (CssTasks.generator_options st). }
  assert (∀ a b : CssTasks.state,
            CssTasks.tasks a = CssTasks.tasks b →
            CssTasks.generator_options a = CssTasks.generator_options b → a = b)
    as Hstate.
  { intros [ta oa] [tb ob]. simpl. by intros -> ->. }
  set (st1 := CssTasks.generator config options st).
  assert (CssTasks.generator_options (CssTasks.generator config options st1)
          = CssTasks.generator_options st1) as Ho.
  { subst st1. by rewrite !generator_options_assign. }
  apply Hstate; [|done].
  rewrite (generator_tasks config options st1), Ho.
  subst st1. rewrite generator_tasks.
  apply map_eq. intros k. rewrite !lookup_insert.
  repeat case_decide; done.
Qed.

(** X5: calls that differ in their suffix only register six distinct
    names, so the registry is the same whichever call comes first; what
    depends on the order is [generator.options], which keeps the suffix
    of the later call. *)
Theorem generator_suffixes_commute
  (config1 config2 : Css.config) (s1 s2 : string) (st : CssTasks.state) :
  s1 ≠ s2 →
  (∀ name, name ∈ CssTasks.task_names
                    (Css.Options (Css.prefix (CssTasks.generator_options st)) s1) →
           name ∉ CssTasks.task_names
                    (Css.Options (Css.prefix (CssTasks.generator_options st)) s2))
  ∧ CssTasks.tasks
      (CssTasks.generator config2 (Some (Css.OptionsArg None (Some s2)))
         (CssTasks.generator config1 (Some (Css.OptionsArg None (Some s1))) st))
    = CssTasks.tasks
        (CssTasks.generator config1 (Some (Css.OptionsArg None (Some s1)))
           (CssTasks.generator config2 (Some (Css.OptionsArg None (Some s2))) st))
  ∧ Css.suffix (CssTasks.generator_options
                  (CssTasks.generator config2 (Some (Css.OptionsArg None (Some s2)))
                     (CssTasks.generator config1
                        (Some (Css.OptionsArg None (Some s1))) st)))
    = s2.
Proof.
  intros Hs. split; [|split; [|reflexivity]].
  - intros name. by apply task_names_disjoint.
  - rewrite !generator_tasks, !generator_options_assign. simpl.
    set (p := Css.prefix (CssTasks.generator_options st)).
    pose proof (task_names_disjoint p s1 s2) as Hdis.
    unfold CssTasks.task_names in Hdis. simpl in Hdis.
    assert (∀ x y, x ∈ ["config"; "build"; "clear"] → y ∈ ["config"; "build"; "clear"] →
                   p +:+ x +:+ s1 ≠ p +:+ y +:+ s2) as Hne.
    { intros x y Hx Hy Heq. apply (Hdis (p +:+ x +:+ s1)); [done| |].
      - revert Hx. rewrite !elem_of_cons.
        intros [->|[->|[->|H]]]; [by left|right; by left|right; right; by left|].
        by apply not_elem_of_nil in H.
      - rewrite Heq. revert Hy. rewrite !elem_of_cons.
        intros [->|[->|[->|H]]]; [by left|right; by left|right; right; by left|].
        by apply not_elem_of_nil in H. }
    apply map_eq. intros k. rewrite !lookup_insert.
    repeat case_decide; try done; subst; exfalso;
      match goal with
      | H : p +:+ ?x +:+ s1 = p +:+ ?y +:+ s2 |- _ =>
          revert H; apply Hne; apply (bool_decide_unpack _); by vm_compute
      | H : p +:+ ?y +:+ s2 = p +:+ ?x +:+ s1 |- _ =>
          symmetry in H; revert H; apply Hne; apply (bool_decide_unpack _); by vm_compute
      end.
Qed.

Lemma generator_suffixes_commute_witness :
  CssTasks.tasks
    (CssTasks.generator Sample.c480 (Some (Css.OptionsArg None (Some ":576")))
       (CssTasks.generator Sample.c480 (Some (Css.OptionsArg None (Some ":480")))
          CssTasks.initial))
  = CssTasks.tasks
      (CssTasks.generator Sample.c480 (Some (Css.OptionsArg None (Some ":480")))
         (CssTasks.generator Sample.c480 (Some (Css.OptionsArg None (Some ":576")))
            CssTasks.initial)).
Proof.
  destruct (generator_suffixes_commute Sample.c480 Sample.c480 ":480" ":576"
              CssTasks.initial) as (_ & Htasks & _).
  - discriminate.
  - exact Htasks.
Defined.

(** ** Preparing the variables, again and in any order *)

(** X6: the preparation is not idempotent. On a [config.vars] that a
    generator has already prepared, DEVELOP comes out [false] whatever it
    was (it no longer holds the string 'true'), and every string variable
    gets a second pair of double quotes. *)
Theorem prepare_twice (vars : gmap string JS.value) :
  Package.prepare (Package.prepare vars) !! "DEVELOP" = Some (JS.Bool false)
  ∧ (∀ name s, name ≠ "DEVELOP" → name ≠ "LIVERELOAD" →
       vars !! name = Some (JS.Str s) →
       Package.prepare (Package.prepare vars) !! name
       = Some (JS.Str (JS.quote +:+ (JS.quote +:+ s +:+ JS.quote) +:+ JS.quote))).
Proof.
  split.
  - rewrite prepare_lookup. simpl.
    unfold Package.develop_flag, JS.get. rewrite prepare_lookup. simpl.
    by destruct (Package.develop_flag vars).
  - intros name s Hd Hl Hs.
    rewrite !prepare_lookup, !decide_False by done. by rewrite Hs.
Qed.

Lemma prepare_twice_witness :
  Package.prepare (Package.prepare Sample.vars) !! "DEVELOP" = Some (JS.Bool false)
  ∧ Package.prepare Sample.vars !! "DEVELOP" = Some (JS.Bool true)
  ∧ Package.prepare (Package.prepare Sample.vars) !! "NAME"
    = Some (JS.Str (JS.quote +:+ (JS.quote +:+ "demo" +:+ JS.quote) +:+ JS.quote)).
Proof.
  destruct (prepare_twice Sample.vars) as [Hdevelop Hstring].
  split; [exact Hdevelop|]. split; [by vm_compute|].
  apply Hstring; done.
Defined.

(** X7: the escaping loop does not depend on the order in which
    [Object.keys] lists the names: visiting every name of the object once,
    in any order, and any further names that the object does not have,
    escapes each string value once and leaves the rest as it is. *)
Theorem escape_any_order (vars : gmap string JS.value) (names : list string) :
  NoDup names →
  (∀ name, is_Some (vars !! name) → name ∈ names) →
  foldl Package.escape_one vars names = Package.escape vars
  ∧ ∀ name, foldl Package.escape_one vars names !! name
            = Package.escaped <$> vars !! name.
Proof.
  intros Hnd Hall.
  assert (∀ name, foldl Package.escape_one vars names !! name
                  = Package.escaped <$> vars !! name) as Hlookup.
  { intros name. rewrite escape_fold_lookup by done.
    case_decide as Hin; [done|].
    destruct (vars !! name) as [v|] eqn:Hv; [|done].
    exfalso. apply Hin, Hall. by rewrite Hv. }
  split; [|done].
  rewrite escape_fmap. apply map_eq. intros name.
  by rewrite Hlookup, lookup_fmap.
Qed.

Lemma escape_any_order_witness :
  foldl Package.escape_one Sample.vars ["PORT"; "NAME"; "TARGET"; "DEVELOP"; "PLATFORM"]
  = Package.escape Sample.vars.
Proof.
  apply (escape_any_order Sample.vars ["PORT"; "NAME"; "TARGET"; "DEVELOP"; "PLATFORM"]).
  - apply (bool_decide_unpack _). by vm_compute.
  - intros name Hname%elem_of_dom. unfold Sample.vars in Hname.
    rewrite dom_list_to_map_L in Hname. apply elem_of_list_to_set in Hname.
    simpl in Hname. revert Hname. rewrite !elem_of_cons.
    intros [->|[->|[->|[->|H]]]]; [..|by apply not_elem_of_nil in H];
      apply (bool_decide_unpack _); by vm_compute.
Defined.

(** ** When a generator throws *)

Section Throws.
Implicit Types (vars : gmap string JS.value).



End Throws.



(** ** The configuration handed to webpack *)

Section Webpack.
Implicit Types (E : Package.env) (vars : gmap string JS.value).
Implicit Types (wc : Package.webpack_config).

Lemma develop_true vars :
  Assembly.develop vars = true ↔ vars !! "DEVELOP" = Some (JS.Str "true").
Proof.
  unfold Assembly.develop, JS.get. rewrite prepare_lookup. simpl.
  apply develop_flag_true.
Qed.

Lemma develop_false vars :
  Assembly.develop vars = false ↔ vars !! "DEVELOP" ≠ Some (JS.Str "true").
Proof.
  rewrite <- develop_true. by destruct (Assembly.develop vars).
Qed.

(** The generator of part_000, in terms of its pieces; [package] is what
    [require] returned, when the type is 'app'. *)
Lemma package_generator_pieces (G : Package.generators) E
  (config : Package.config) (st st' : CssTasks.state) :
  fst <$> PackageGenerator.generator G E config st = Some st' →
  ∃ target wc package,
    Package.target_dir (Package.vars config) = Some target
    ∧ Assembly.package_webpack E (Package.vars config) = Some wc
    ∧ st' = CssTasks.State
              (PackageGenerator.main_tasks target
                 (CssTasks.tasks (Assembly.package_before_main G package config st target wc)))
              (CssTasks.generator_options
                 (Assembly.package_before_main G package config st target wc)).
Proof.
  unfold PackageGenerator.generator, Assembly.package_webpack. intros Hrun.
  destruct (Package.target_dir _) as [target|]; [|done].
  destruct (Package.platform_name _) as [platformName|]; [|done].
  cbn [mbind option_bind] in Hrun |- *.
  unfold Assembly.package_before_main, Assembly.package_sources, Assembly.develop.
  destruct (bool_decide (Package.type config = Some "app")).
  - destruct (Package.package_data E) as [package|]; [|done].
    injection Hrun as <-. by eexists target, _, package.
  - injection Hrun as <-. by eexists target, _, JS.Undefined.
Qed.

(** The generator of the second document of css.js, in terms of its
    pieces. *)
Lemma app_generator_pieces (G : Package.generators) E
  (config : Package.config) (st st' : CssTasks.state) :
  fst <$> AppGenerator.generator G E config st = Some st' →
  ∃ target wc package,
    Package.target_dir (Package.vars config) = Some target
    ∧ Assembly.app_webpack E (Package.vars config) = Some wc
    ∧ st' = CssTasks.State
              (AppGenerator.main_tasks target
                 (CssTasks.tasks (Assembly.app_before_main G package config st target wc)))
              (CssTasks.generator_options
                 (Assembly.app_before_main G package config st target wc)).
Proof.
  unfold AppGenerator.generator, Assembly.app_webpack. intros Hrun.
  destruct (Package.target_dir _) as [target|]; [|done].
  destruct (Package.package_data E) as [package|]; [|done].
  injection Hrun as <-. by eexists target, _, package.
Qed.
End Webpack.

(** X9: the module replacement for a platform, in the generator of
    part_000. The platform is PLATFORM in lower case when PLATFORM is set,
    and TARGET as it is written otherwise; the webpack plugins are the
    constants and the occurrence order, followed by the replacement of
    mag-app when the platform is one of tizen, webos and smarttv. So
    PLATFORM selects the replacement in any letter case, TARGET only in
    lower case, and PLATFORM decides when both are set. *)
Theorem package_webpack_replacement
  (E : Package.env) (vars : gmap string JS.value) (wc : Package.webpack_config) :
  Assembly.package_webpack E vars = Some wc →
  ∃ platformName,
    Package.wp_plugins wc
    = [Package.DefinePlugin (Package.prepare vars); Package.OccurrenceOrderPlugin]
      ++ Package.option_list (Package.replacePlugin (Package.cwd E) platformName)
    ∧ (∀ p, JS.get vars "PLATFORM" = JS.Str p → p ≠ EmptyString →
            platformName = JS.Str (JS.toLowerCase p))
    ∧ (JS.truthy (JS.get vars "PLATFORM") = false →
       platformName = JS.get vars "TARGET")
    ∧ (∀ name resource,
         Package.replacePlugin (Package.cwd E) (JS.Str name)
         = Some (Package.NormalModuleReplacementPlugin resource) ↔
         (name = "tizen"
          ∧ resource = Path.join [Package.cwd E; "/node_modules/tzn-app/index.js/"])
         ∨ (name = "webos"
            ∧ resource = Path.join [Package.cwd E; "/node_modules/webos-app/index.js/"])
         ∨ (name = "smarttv"
            ∧ resource = Path.join [Package.cwd E; "/node_modules/stv-app/index.js/"])).
Proof.
  unfold Assembly.package_webpack. intros Hwc.
  destruct (Package.target_dir vars) as [target|]; [|done].
  destruct (Package.platform_name vars) as [platformName|] eqn:Hpn; [|done].
  injection Hwc as <-. exists platformName.
  split; [done|]. unfold Package.platform_name in Hpn. split; [|split].
  - intros p Hp Hne. rewrite Hp in Hpn. simpl in Hpn.
    rewrite (proj2 (String.eqb_neq p EmptyString)) in Hpn by done.
    simpl in Hpn. by injection Hpn.
  - intros Hfalsy. rewrite Hfalsy in Hpn. by injection Hpn.
  - intros name resource. unfold Package.replacePlugin.
    destruct (String.eqb_spec name "tizen") as [->|Ht].
    { split; [intros [= <-]; by left|].
      intros [[_ ->]|[[? _]|[? _]]]; done. }
    destruct (String.eqb_spec name "webos") as [->|Hw].
    { split; [intros [= <-]; right; by left|].
      intros [[? _]|[[_ ->]|[? _]]]; done. }
    destruct (String.eqb_spec name "smarttv") as [->|Hs].
    { split; [intros [= <-]; right; by right|].
      intros [[? _]|[[? _]|[_ ->]]]; done. }
    split; [by case_bool_decide|]. intros [[? _]|[[? _]|[? _]]]; done.
Qed.

Lemma package_webpack_replacement_witness :
  (∃ wc, Assembly.package_webpack Sample.env Cases.tizen_platform = Some wc
         ∧ Package.wp_plugins wc
           = [Package.DefinePlugin (Package.prepare Cases.tizen_platform);
              Package.OccurrenceOrderPlugin;
              Package.NormalModuleReplacementPlugin
                "/home/dev/app/node_modules/tzn-app/index.js/"])
  ∧ (∃ wc, Assembly.package_webpack Sample.env Cases.tizen_target = Some wc
           ∧ Package.wp_plugins wc
             = [Package.DefinePlugin (Package.prepare Cases.tizen_target);
                Package.OccurrenceOrderPlugin]).
Proof.
  split.
  - eexists. split; [reflexivity|].
    destruct (package_webpack_replacement Sample.env Cases.tizen_platform _ eq_refl)
      as (pn & -> & Hplatform & _).
    rewrite (Hplatform "TIZEN"); [reflexivity|reflexivity|discriminate].
  - eexists. split; [reflexivity|].
    destruct (package_webpack_replacement Sample.env Cases.tizen_target _ eq_refl)
      as (pn & -> & _ & Htarget & _).
    rewrite Htarget; reflexivity.
Defined.

(** X10: how DEVELOP shapes the webpack configuration. For both
    generators the mode is 'development' exactly when the incoming
    DEVELOP is the string 'true' and 'production' otherwise, and the
    minimizer is configured exactly in production. The generator of
    part_000 always asks for source maps (devtool 'source-map', and
    [sourceMap: true] in the minimizer); the other one sets the devtool in
    development only and gives the minimizer no source map. *)
Theorem webpack_by_develop
  (E : Package.env) (vars : gmap string JS.value) (wc : Package.webpack_config) :
  (Assembly.package_webpack E vars = Some wc →
   (Package.wp_mode wc = "development" ↔ vars !! "DEVELOP" = Some (JS.Str "true"))
   ∧ (Package.wp_mode wc = "production" ↔ vars !! "DEVELOP" ≠ Some (JS.Str "true"))
   ∧ Package.wp_devtool wc = Some "source-map"
   ∧ (Package.wp_minimizer_sourceMap wc = Some true
      ↔ vars !! "DEVELOP" ≠ Some (JS.Str "true"))
   ∧ (Package.wp_minimizer_sourceMap wc = None
      ↔ vars !! "DEVELOP" = Some (JS.Str "true")))
  ∧ (Assembly.app_webpack E vars = Some wc →
     (Package.wp_mode wc = "development" ↔ vars !! "DEVELOP" = Some (JS.Str "true"))
     ∧ (Package.wp_mode wc = "production" ↔ vars !! "DEVELOP" ≠ Some (JS.Str "true"))
     ∧ (Package.wp_devtool wc = Some "source-map"
        ↔ vars !! "DEVELOP" = Some (JS.Str "true"))
     ∧ (Package.wp_devtool wc = None ↔ vars !! "DEVELOP" ≠ Some (JS.Str "true"))
     ∧ (Package.wp_minimizer_sourceMap wc = Some false
        ↔ vars !! "DEVELOP" ≠ Some (JS.Str "true"))
     ∧ (Package.wp_minimizer_sourceMap wc = None
        ↔ vars !! "DEVELOP" = Some (JS.Str "true"))).
Proof.
  pose proof (develop_true vars) as Htrue.
  pose proof (develop_false vars) as Hfalse.
  unfold Assembly.package_webpack, Assembly.app_webpack.
  split; intros Hwc; destruct (Package.target_dir vars) as [target|]; try done.
  - destruct (Package.platform_name vars) as [platformName|]; [|done].
    injection Hwc as <-. simpl.
    destruct (Assembly.develop vars); simpl;
      repeat split; try done; try (intros; by apply Htrue);
      try (intros; by apply Hfalse);
      try (intros H; by apply Htrue in H); try (intros H; by apply Hfalse in H).
  - injection Hwc as <-. simpl.
    destruct (Assembly.develop vars); simpl;
      repeat split; try done; try (intros; by apply Htrue);
      try (intros; by apply Hfalse);
      try (intros H; by apply Htrue in H); try (intros H; by apply Hfalse in H).
Qed.

Lemma webpack_by_develop_witness :
  (∃ wc, Assembly.package_webpack Sample.env Cases.tizen_platform = Some wc
         ∧ Package.wp_mode wc = "development"
         ∧ Package.wp_minimizer_sourceMap wc = None)
  ∧ (∃ wc, Assembly.app_webpack Sample.env Cases.tizen_target = Some wc
           ∧ Package.wp_mode wc = "production"
           ∧ Package.wp_devtool wc = None).
Proof.
  split.
  - eexists. split; [reflexivity|].
    match goal with
    | |- Package.wp_mode ?wc = _ ∧ _ =>
        destruct (webpack_by_develop Sample.env Cases.tizen_platform wc)
          as [Hpackage _]
    end.
    destruct (Hpackage eq_refl) as (Hmode & _ & _ & _ & Hmin).
    split; [by apply Hmode|by apply Hmin].
  - eexists. split; [reflexivity|].
    match goal with
    | |- Package.wp_mode ?wc = _ ∧ _ =>
        destruct (webpack_by_develop Sample.env Cases.tizen_target wc) as [_ Happ]
    end.
    destruct (Happ eq_refl) as (_ & Hmode & _ & Hdev & _).
    split; [by apply Hmode|by apply Hdev].
Defined.

(** ** The registry, task by task *)

Section RegistryMore.
Context (G : Package.generators) (target : string) (develop : bool).
Implicit Types (st : CssTasks.state) (R k : string) (rs : list string).
Implicit Types (tasks : gmap string Runner.node).

(** A call of the CSS tasks generator leaves the other names alone. *)
Lemma generator_lookup_other (config : Css.config)
  (options : option Css.options_arg) st k :
  k ∉ CssTasks.task_names
        (CssTasks.generator_options (CssTasks.generator config options st)) →
  CssTasks.tasks (CssTasks.generator config options st) !! k = CssTasks.tasks st !! k.
Proof.
  intros Hk. unfold CssTasks.task_names in Hk. rewrite generator_tasks.
  rewrite !lookup_insert_ne; [done|..]; intros <-; apply Hk.
  - by left.
  - right. by left.
  - right. right. by left.
Qed.

Lemma assign_mono tasks (sources : list (gmap string Runner.node)) k :
  is_Some (tasks !! k) → is_Some (Runner.assign tasks sources !! k).
Proof.
  unfold Runner.assign. revert tasks.
  induction sources as [|s sources IH]; intros tasks Hk; [done|].
  simpl. apply IH. apply lookup_union_is_Some. by right.
Qed.

Lemma per_resolution_other st R k :
  k ∉ CssTasks.task_names
        (Css.Options (Css.prefix (CssTasks.generator_options st)) (":" +:+ R)) →
  (∀ cfg suffix, Package.sass G cfg suffix !! k = None) →
  CssTasks.tasks (Package.per_resolution G target develop st R) !! k
  = CssTasks.tasks st !! k.
Proof.
  intros Hk Hsass.
  destruct (per_resolution_tasks G target develop st R)
    as (fromSass & config & -> & ->).
  rewrite lookup_union_r by apply Hsass.
  by apply generator_lookup_other.
Qed.

Lemma per_resolution_build st R :
  Css.prefix (CssTasks.generator_options st) = "css:" →
  (∀ cfg suffix, Package.sass G cfg suffix !! ("css:build:" +:+ R) = None) →
  CssTasks.tasks (Package.per_resolution G target develop st R)
    !! ("css:build:" +:+ R)
  = Some (Runner.Fn (Runner.CssBuild
            (Css.Config R (Path.join [target; "css"; "sdk." +:+ R +:+ ".css"])
                        (if develop then "develop" else "release")))).
Proof.
  intros Hprefix Hsass. unfold Package.per_resolution.
  cbn [CssTasks.tasks]. unfold Runner.assign. cbn [foldl].
  rewrite lookup_union_r by apply Hsass.
  pose proof (generator_build_lookup
                (Css.Config R (Path.join [target; "css"; "sdk." +:+ R +:+ ".css"])
                            (if develop then "develop" else "release"))
                (Some (Css.OptionsArg None (Some (":" +:+ R)))) st) as Hbuild.
  assert (Css.prefix
            (CssTasks.generator_options
               (CssTasks.generator
                  (Css.Config R (Path.join [target; "css"; "sdk." +:+ R +:+ ".css"])
                              (if develop then "develop" else "release"))
                  (Some (Css.OptionsArg None (Some (":" +:+ R)))) st))
          = "css:") as Hp by exact Hprefix.
  assert (Css.suffix
            (CssTasks.generator_options
               (CssTasks.generator
                  (Css.Config R (Path.join [target; "css"; "sdk." +:+ R +:+ ".css"])
                              (if develop then "develop" else "release"))
                  (Some (Css.OptionsArg None (Some (":" +:+ R)))) st))
          = ":" +:+ R) as Hs by reflexivity.
  rewrite Hp, Hs in Hbuild. exact Hbuild.
Qed.

Lemma resolutions_prefix rs st :
  Css.prefix (CssTasks.generator_options
                (foldl (Package.per_resolution G target develop) st rs))
  = Css.prefix (CssTasks.generator_options st).
Proof.
  revert st. induction rs as [|R rs IH]; intros st; [done|].
  simpl. by rewrite IH.
Qed.

Lemma build_name_other_resolution R R' :
  R ≠ R' →
  ("css:build:" +:+ R) ∉ CssTasks.task_names (Css.Options "css:" (":" +:+ R')).
Proof.
  intros Hne. apply (task_names_disjoint "css:" (":" +:+ R) (":" +:+ R')).
  - intros Heq. apply Hne. by apply (inj (String.append ":")) in Heq.
  - right. by left.
Qed.

Lemma resolutions_other rs st R :
  R ∉ rs →
  Css.prefix (CssTasks.generator_options st) = "css:" →
  (∀ cfg suffix, Package.sass G cfg suffix !! ("css:build:" +:+ R) = None) →
  CssTasks.tasks (foldl (Package.per_resolution G target develop) st rs)
    !! ("css:build:" +:+ R)
  = CssTasks.tasks st !! ("css:build:" +:+ R).
Proof.
  intros HR Hprefix Hsass. revert st Hprefix.
  induction rs as [|R' rs IH]; intros st Hprefix; [done|].
  apply not_elem_of_cons in HR as [Hne HR]. simpl.
  rewrite IH by done. apply per_resolution_other; [|done].
  rewrite Hprefix. by apply build_name_other_resolution.
Qed.

(** After the loop, the build task of each resolution is the one the loop
    registered for it. *)
Lemma resolutions_build rs st R :
  NoDup rs → R ∈ rs →
  Css.prefix (CssTasks.generator_options st) = "css:" →
  (∀ cfg suffix R', Package.sass G cfg suffix !! ("css:build:" +:+ R') = None) →
  CssTasks.tasks (foldl (Package.per_resolution G target develop) st rs)
    !! ("css:build:" +:+ R)
  = Some (Runner.Fn (Runner.CssBuild
            (Css.Config R (Path.join [target; "css"; "sdk." +:+ R +:+ ".css"])
                        (if develop then "develop" else "release")))).
Proof.
  intros Hnd HR Hprefix Hsass. revert st Hprefix.
  induction rs as [|R' rs IH]; intros st Hprefix.
  - by apply not_elem_of_nil in HR.
  - apply NoDup_cons in Hnd as [Hnotin Hnd]. simpl.
    apply elem_of_cons in HR as [->|HR].
    + rewrite resolutions_other; [|done|done|by intros].
      apply per_resolution_build; [done|by intros].
    + by apply IH.
Qed.
End RegistryMore.

Section MainTasksMore.
Implicit Types (target : string) (tasks : gmap string Runner.node).

Lemma app_main_tasks_other target tasks k :
  k ∉ Assembly.app_main_names →
  AppGenerator.main_tasks target tasks !! k = tasks !! k.
Proof.
  intros Hk. unfold AppGenerator.main_tasks, Runner.task.
  rewrite !lookup_insert_ne; [done|..]; intros <-; apply Hk;
    apply (bool_decide_unpack _); by vm_compute.
Qed.

Lemma app_main_tasks_composites target tasks :
  AppGenerator.main_tasks target tasks !! "build" = Some AppGenerator.build_task
  ∧ AppGenerator.main_tasks target tasks !! "watch"
    = Some (Runner.Fn (Runner.Watch "src" ["css:build"]))
  ∧ AppGenerator.main_tasks target tasks !! "serve" = Some Package.serve
  ∧ AppGenerator.main_tasks target tasks !! "default" = Some Package.default_task
  ∧ AppGenerator.main_tasks target tasks !! "sass:build" = Some Package.sass_build
  ∧ AppGenerator.main_tasks target tasks !! "css:build" = Some Package.css_build.
Proof.
  unfold AppGenerator.main_tasks, Runner.task.
  repeat split; by rewrite ?lookup_insert_ne, lookup_insert_eq by done.
Qed.

Lemma app_resolution_names_other R :
  R ∈ Package.resolutions →
  (("sass:build:" +:+ R) ∉ Assembly.app_main_names)
  ∧ (("css:build:" +:+ R) ∉ Assembly.app_main_names).
Proof.
  unfold Package.resolutions. rewrite !elem_of_cons.
  intros [->|[->|[->|[->|H]]]]; [..|by apply not_elem_of_nil in H];
    split; apply (bool_decide_unpack _); by vm_compute.
Qed.

Lemma main_tasks_mono target tasks k :
  is_Some (tasks !! k) →
  is_Some (PackageGenerator.main_tasks target tasks !! k)
  ∧ is_Some (AppGenerator.main_tasks target tasks !! k).
Proof.
  intros Hk. unfold PackageGenerator.main_tasks, AppGenerator.main_tasks, Runner.task.
  split; rewrite !lookup_insert_is_Some'; auto 20.
Qed.

Lemma resolutions_NoDup : NoDup Package.resolutions.
Proof. apply (bool_decide_unpack _). by vm_compute. Qed.
End MainTasksMore.

(** X11: the generator in the second document of css.js registers the
    per-resolution tasks for every config, whatever its type: afterwards
    the registry holds build (a flat parallel composition, gettext:build
    included), watch, serve and default, sass:build and css:build as the
    parallel composition of their four per-resolution names, and
    sass:build:R and css:build:R for R in 480, 576, 720 and 1080 (given
    that the CSS generator still has the prefix 'css:' and the sass
    generator names its build task 'sass:build' followed by its suffix). *)
Theorem app_generator_registry
  (G : Package.generators) (E : Package.env) (config : Package.config)
  (st st' : CssTasks.state) :
  fst <$> AppGenerator.generator G E config st = Some st' →
  CssTasks.tasks st' !! "build"
  = Some (Runner.Parallel
            [Runner.Ref "pug:build"; Runner.Ref "sass:build"; Runner.Ref "css:build";
             Runner.Ref "webpack:build"; Runner.Ref "gettext:build";
             Runner.Ref "copy"])
  ∧ CssTasks.tasks st' !! "watch" = Some (Runner.Fn (Runner.Watch "src" ["css:build"]))
  ∧ CssTasks.tasks st' !! "serve"
    = Some (Runner.Parallel
              [Runner.Ref "static:start"; Runner.Ref "livereload:start";
               Runner.Ref "repl:start"; Runner.Ref "notify:start"])
  ∧ CssTasks.tasks st' !! "default"
    = Some (Runner.Serial
              [Runner.Ref "build";
               Runner.Parallel [Runner.Ref "watch"; Runner.Ref "serve"]])
  ∧ CssTasks.tasks st' !! "sass:build"
    = Some (Runner.Parallel
              [Runner.Ref "sass:build:480"; Runner.Ref "sass:build:576";
               Runner.Ref "sass:build:720"; Runner.Ref "sass:build:1080"])
  ∧ CssTasks.tasks st' !! "css:build"
    = Some (Runner.Parallel
              [Runner.Ref "css:build:480"; Runner.Ref "css:build:576";
               Runner.Ref "css:build:720"; Runner.Ref "css:build:1080"])
  ∧ (Css.prefix (CssTasks.generator_options st) = "css:" →
     (∀ cfg suffix, is_Some (Package.sass G cfg suffix !! ("sass:build" +:+ suffix))) →
     ∀ R, R ∈ ["480"; "576"; "720"; "1080"] →
       is_Some (CssTasks.tasks st' !! ("sass:build:" +:+ R))
       ∧ is_Some (CssTasks.tasks st' !! ("css:build:" +:+ R))).
Proof.
  intros (target & wc & package & _ & _ & ->)%app_generator_pieces.
  cbn [CssTasks.tasks].
  destruct (app_main_tasks_composites target
              (CssTasks.tasks (Assembly.app_before_main G package config st target wc)))
    as (Hb & Hw & Hs & Hd & Hsb & Hcb).
  repeat (split; [assumption|]).
  intros Hprefix Hsass R HR.
  destruct (app_resolution_names_other R HR) as [Hn1 Hn2].
  rewrite !app_main_tasks_other by done.
  by apply resolutions_registered.
Qed.

Lemma app_generator_registry_witness :
  ∃ st',
    fst <$> AppGenerator.generator Sample.generators Sample.env Sample.lib
              CssTasks.initial = Some st'
    ∧ is_Some (CssTasks.tasks st' !! "sass:build:480")
    ∧ is_Some (CssTasks.tasks st' !! "css:build:480").
Proof.
  eexists. split; [reflexivity|].
  destruct (app_generator_registry Sample.generators Sample.env Sample.lib
              CssTasks.initial _ eq_refl)
    as (_ & _ & _ & _ & _ & _ & Hres).
  apply (Hres eq_refl).
  - intros cfg suffix. unfold Sample.generators, Sample.ext. simpl.
    rewrite lookup_insert_eq. by eexists.
  - by left.
Defined.

(** X12: which file each per-resolution CSS task builds. When the
    resolutions are registered (always by the generator of the second
    document of css.js, for [config.type] 'app' by the one of part_000),
    css:build:R is the build action for resolution R with the output file
    sdk.R.css in the css directory of the target directory, in mode
    'develop' exactly when the incoming DEVELOP is the string 'true' and
    'release' otherwise; a later resolution does not replace it. (The
    sass generator is taken not to register names css:build:R.) *)
Theorem css_build_task_per_resolution
  (G : Package.generators) (E : Package.env) (config : Package.config)
  (st st' : CssTasks.state) (R : string) :
  (fst <$> PackageGenerator.generator G E config st = Some st'
   ∧ Package.type config = Some "app")
  ∨ fst <$> AppGenerator.generator G E config st = Some st' →
  Css.prefix (CssTasks.generator_options st) = "css:" →
  (∀ cfg suffix R', Package.sass G cfg suffix !! ("css:build:" +:+ R') = None) →
  R ∈ ["480"; "576"; "720"; "1080"] →
  ∃ target,
    Package.target_dir (Package.vars config) = Some target
    ∧ CssTasks.tasks st' !! ("css:build:" +:+ R)
      = Some (Runner.Fn (Runner.CssBuild
                (Css.Config R
                   (Path.join [target; "css"; "sdk." +:+ R +:+ ".css"])
                   (if Assembly.develop (Package.vars config)
                    then "develop" else "release"))))
    ∧ (Assembly.develop (Package.vars config) = true
       ↔ Package.vars config !! "DEVELOP" = Some (JS.Str "true")).
Proof.
  intros Hrun Hprefix Hsass HR.
  destruct Hrun as [[(target & wc & package & Htarget & _ & ->)%package_generator_pieces Happ]
                   |(target & wc & package & Htarget & _ & ->)%app_generator_pieces];
    exists target; (split; [done|]); (split; [|apply develop_true]);
    cbn [CssTasks.tasks].
  - destruct (resolution_names_other R HR) as [_ Hn].
    rewrite main_tasks_other by done.
    unfold Assembly.package_before_main. rewrite bool_decide_eq_true_2 by done.
    apply resolutions_build; [apply resolutions_NoDup|done..].
  - destruct (app_resolution_names_other R HR) as [_ Hn].
    rewrite app_main_tasks_other by done.
    unfold Assembly.app_before_main.
    apply resolutions_build; [apply resolutions_NoDup|done..].
Qed.

Lemma css_build_task_witness :
  ∃ st',
    fst <$> PackageGenerator.generator Sample.generators Sample.env Sample.app
              CssTasks.initial = Some st'
    ∧ CssTasks.tasks st' !! "css:build:576"
      = Some (Runner.Fn (Runner.CssBuild
                (Css.Config "576" "build/mag/css/sdk.576.css" "develop"))).
Proof.
  eexists. split; [reflexivity|].
  destruct (css_build_task_per_resolution Sample.generators Sample.env Sample.app
              CssTasks.initial _ "576" (or_introl (conj eq_refl eq_refl)))
    as (target & Htarget & Hbuild & _).
  - reflexivity.
  - intros cfg suffix R'. unfold Sample.generators, Sample.ext. simpl.
    rewrite !lookup_insert_ne by discriminate. done.
  - right. by left.
  - injection Htarget as <-. exact Hbuild.
Defined.

(** X13: a package generator never unregisters a task: every name the
    registry holds before the call it holds afterwards (possibly with a
    new task). *)
Theorem generators_keep_names
  (G : Package.generators) (E : Package.env) (config : Package.config)
  (st st' : CssTasks.state) (k : string) :
  fst <$> PackageGenerator.generator G E config st = Some st'
  ∨ fst <$> AppGenerator.generator G E config st = Some st' →
  is_Some (CssTasks.tasks st !! k) → is_Some (CssTasks.tasks st' !! k).
Proof.
  intros [(target & wc & package & _ & _ & ->)%package_generator_pieces
         |(target & wc & package & _ & _ & ->)%app_generator_pieces] Hk;
    cbn [CssTasks.tasks]; apply main_tasks_mono.
  - unfold Assembly.package_before_main. destruct (bool_decide _).
    + apply resolutions_mono. cbn [CssTasks.tasks]. by do 2 apply assign_mono.
    + cbn [CssTasks.tasks]. by apply assign_mono.
  - unfold Assembly.app_before_main.
    apply resolutions_mono. cbn [CssTasks.tasks]. by apply assign_mono.
Qed.

Lemma generators_keep_names_witness :
  ∃ st',
    fst <$> PackageGenerator.generator Sample.generators Sample.env Sample.lib
              (CssTasks.State {[ "deploy" := Runner.Ref "build" ]} Css.defaults)
    = Some st'
    ∧ is_Some (CssTasks.tasks st' !! "deploy").
Proof.
  eexists. split; [reflexivity|].
  apply (generators_keep_names Sample.generators Sample.env Sample.lib
           (CssTasks.State {[ "deploy" := Runner.Ref "build" ]} Css.defaults)).
  - left. reflexivity.
  - cbn [CssTasks.tasks]. rewrite lookup_singleton_eq. by eexists.
Defined.

Lemma assign_other (tasks : gmap string Runner.node)
  (sources : list (gmap string Runner.node)) (k : string) :
  (∀ s, s ∈ sources → s !! k = None) →
  Runner.assign tasks sources !! k = tasks !! k.
Proof.
  unfold Runner.assign. revert tasks.
  induction sources as [|s sources IH]; intros tasks Hk; [done|].
  simpl. rewrite IH by (intros s' Hs'; apply Hk; by right).
  apply lookup_union_r. apply Hk. by left.
Qed.

(** X14: for a config whose type is not 'app', the generator of part_000
    does not call the CSS and sass generators: [generator.options] is
    left as it was, and a name that is neither one of the nine main task
    names nor supplied by an external generator keeps its task, or stays
    unregistered. *)
Theorem library_package_untouched
  (G : Package.generators) (E : Package.env) (config : Package.config)
  (st st' : CssTasks.state) :
  fst <$> PackageGenerator.generator G E config st = Some st' →
  Package.type config ≠ Some "app" →
  CssTasks.generator_options st' = CssTasks.generator_options st
  ∧ ∀ k, k ∉ ["init"; "copy"; "gettext:prepare"; "sass:build"; "css:build";
               "build"; "watch"; "serve"; "default"] →
         (∀ target wc s, s ∈ Assembly.package_sources G target wc → s !! k = None) →
         CssTasks.tasks st' !! k = CssTasks.tasks st !! k.
Proof.
  intros (target & wc & package & _ & _ & ->)%package_generator_pieces Hlib.
  unfold Assembly.package_before_main.
  rewrite bool_decide_eq_false_2 by done. cbn [CssTasks.tasks CssTasks.generator_options].
  split; [done|]. intros k Hk Hsources.
  rewrite main_tasks_other by exact Hk.
  apply assign_other. intros s. apply Hsources.
Qed.

Lemma library_package_untouched_witness :
  ∃ st',
    fst <$> PackageGenerator.generator Sample.generators Sample.env Sample.lib
              CssTasks.initial = Some st'
    ∧ CssTasks.generator_options st' = Css.defaults
    ∧ CssTasks.tasks st' !! "css:build:1080" = None.
Proof.
  eexists. split; [reflexivity|].
  destruct (library_package_untouched Sample.generators Sample.env Sample.lib
              CssTasks.initial _ eq_refl) as [Hoptions Htasks].
  - discriminate.
  - split; [exact Hoptions|].
    rewrite Htasks; [done| |].
    + apply (bool_decide_unpack _). by vm_compute.
    + intros target wc s Hs. unfold Assembly.package_sources in Hs.
      revert Hs. rewrite !elem_of_cons.
      intros [->|[->|[->|[->|[->|[->|[->|[->|H]]]]]]]];
        [..|by apply not_elem_of_nil in H]; by vm_compute.
Defined.

(** X15: when the resolutions have been registered (by the generator of
    part_000 for [config.type] 'app', by the other generator always),
    [generator.options] of css.js is left with the suffix ':1080', the
    prefix as before. A later call of the CSS tasks generator without
    options therefore registers its tasks under that suffix, and its
    build task takes the place of the one for resolution 1080. *)
Theorem resolutions_leave_suffix
  (G : Package.generators) (E : Package.env) (config : Package.config)
  (st st' : CssTasks.state) :
  (fst <$> PackageGenerator.generator G E config st = Some st'
   ∧ Package.type config = Some "app")
  ∨ fst <$> AppGenerator.generator G E config st = Some st' →
  CssTasks.generator_options st'
  = Css.Options (Css.prefix (CssTasks.generator_options st)) ":1080"
  ∧ ∀ later : Css.config,
      CssTasks.tasks (CssTasks.generator later None st')
        !! (Css.prefix (CssTasks.generator_options st) +:+ "build" +:+ ":1080")
      = Some (Runner.Fn (Runner.CssBuild later)).
Proof.
  intros Hrun.
  assert (CssTasks.generator_options st'
          = Css.Options (Css.prefix (CssTasks.generator_options st)) ":1080")
    as Hoptions.
  { destruct Hrun as [[(target & wc & package & _ & _ & ->)%package_generator_pieces Happ]
                     |(target & wc & package & _ & _ & ->)%app_generator_pieces];
      cbn [CssTasks.generator_options].
    - unfold Assembly.package_before_main. rewrite bool_decide_eq_true_2 by done.
      reflexivity.
    - reflexivity. }
  split; [done|]. intros later.
  pose proof (generator_build_lookup later None st') as Hbuild.
  rewrite generator_options_assign, Hoptions in Hbuild. exact Hbuild.
Qed.

Lemma resolutions_leave_suffix_witness :
  ∃ st',
    fst <$> PackageGenerator.generator Sample.generators Sample.env Sample.app
              CssTasks.initial = Some st'
    ∧ CssTasks.generator_options st' = Css.Options "css:" ":1080"
    ∧ CssTasks.tasks (CssTasks.generator Sample.c480 None st') !! "css:build:1080"
      = Some (Runner.Fn (Runner.CssBuild Sample.c480)).
Proof.
  eexists. split; [reflexivity|].
  destruct (resolutions_leave_suffix Sample.generators Sample.env Sample.app
              CssTasks.initial _ (or_introl (conj eq_refl eq_refl)))
    as [Hoptions Hlater].
  split; [exact Hoptions|]. exact (Hlater Sample.c480).
Defined.

(** ** The init and gettext:prepare tasks *)

(** X16: the init task of part_000 hands no error on. The only call of
    [done] it makes itself is [done(true)], and it makes it exactly when
    .npmignore cannot be read (the error goes to the log); then nothing is
    written. When the read succeeds it writes the data it read to
    .npmignore in the target directory and runs gettext:prepare with the
    callback. What [tools.mkdir] and [tools.write] report changes nothing
    of this. *)
Theorem init_reports_true_only (w : Tasks.world) (target : string) :
  (∀ a, Tasks.Done a ∈ Tasks.init w target →
        a = Tasks.JustTrue ∧ ∃ error, Tasks.readFile w ".npmignore" = inl error)
  ∧ ((∃ error, Tasks.readFile w ".npmignore" = inl error) →
     Tasks.Done Tasks.JustTrue ∈ Tasks.init w target
     ∧ filter (fun e => Tasks.is_write e = true) (Tasks.init w target) = []
     ∧ Tasks.Run "gettext:prepare" ∉ Tasks.init w target)
  ∧ (∀ data, Tasks.readFile w ".npmignore" = inr data →
       filter (fun e => Tasks.is_write e = true) (Tasks.init w target)
       = [Tasks.WriteFile (Path.join [target; ".npmignore"]) data]
       ∧ last (Tasks.init w target) = Some (Tasks.Run "gettext:prepare"))
  ∧ (∀ w', Tasks.readFile w' ".npmignore" = Tasks.readFile w ".npmignore" →
       Tasks.init w' target = Tasks.init w target).
Proof.
  unfold Tasks.init. split; [|split; [|split]].
  - intros a. destruct (Tasks.readFile w ".npmignore") as [error|data];
      rewrite !elem_of_cons; intros [H|[H|[H|[H|H]]]]; try discriminate H;
      try (by apply not_elem_of_nil in H).
    injection H as ->. eauto.
  - intros [error ->]. split; [|split].
    + do 3 right. by left.
    + done.
    + rewrite !elem_of_cons.
      intros [H|[H|[H|[H|H]]]]; try discriminate H. by apply not_elem_of_nil in H.
  - intros data ->. done.
  - by intros w' ->.
Qed.

Lemma init_reports_witness :
  Tasks.init Cases.project_bare "build/mag"
  = [Tasks.Mkdir ["build/mag/lang"; "build/mag/css"]; Tasks.ReadFile ".npmignore";
     Tasks.LogFail "ENOENT"; Tasks.Done Tasks.JustTrue]
  ∧ filter (fun e => Tasks.is_write e = true) (Tasks.init Cases.project "build/mag")
    = [Tasks.WriteFile "build/mag/.npmignore" "node_modules"].
Proof.
  destruct (init_reports_true_only Cases.project "build/mag")
    as (_ & _ & Hread & _).
  split; [reflexivity|].
  destruct (Hread "node_modules" eq_refl) as [Hwrite _]. exact Hwrite.
Defined.

(** X17: the init task of the generator in the second document of
    css.js copies .npmignore whether or not the directories could be
    created, and then calls [done] with what [tools.mkdir] reported,
    unchanged. It calls [done] exactly when .npmignore could be read and
    written; otherwise the copy throws inside the callback and [done] is
    never invoked. *)
Theorem init_sync_reports_mkdir (w : Tasks.world) (target : string) :
  (∀ a, Tasks.Done a ∈ Tasks.init_sync w target →
        a = Tasks.reported (Tasks.mkdir w (Tasks.init_dirs target)))
  ∧ ((∃ a, Tasks.Done a ∈ Tasks.init_sync w target) ↔
     ∃ data, Tasks.readFile w ".npmignore" = inr data
             ∧ Tasks.writeFileSync w (Path.join [target; ".npmignore"]) data = None)
  ∧ (∀ data, Tasks.readFile w ".npmignore" = inr data →
       Tasks.WriteFile (Path.join [target; ".npmignore"]) data
       ∈ Tasks.init_sync w target)
  ∧ ((∀ a, Tasks.Done a ∉ Tasks.init_sync w target) →
     ∃ error, last (Tasks.init_sync w target) = Some (Tasks.Throw error)).
Proof.
  unfold Tasks.init_sync.
  destruct (Tasks.readFile w ".npmignore") as [error|data].
  - split; [|split; [|split]].
    + intros a. rewrite !elem_of_cons.
      intros [H|[H|[H|H]]]; try discriminate H. by apply not_elem_of_nil in H.
    + split.
      * intros [a Ha]. revert Ha. rewrite !elem_of_cons.
        intros [H|[H|[H|H]]]; try discriminate H. by apply not_elem_of_nil in H.
      * intros (data & H & _). discriminate H.
    + intros data H. discriminate H.
    + intros _. by exists error.
  - destruct (Tasks.writeFileSync w (Path.join [target; ".npmignore"]) data)
      as [error|] eqn:Hwrite.
    + split; [|split; [|split]].
      * intros a. rewrite !elem_of_cons.
        intros [H|[H|[H|[H|H]]]]; try discriminate H. by apply not_elem_of_nil in H.
      * split.
        -- intros [a Ha]. revert Ha. rewrite !elem_of_cons.
           intros [H|[H|[H|[H|H]]]]; try discriminate H.
           by apply not_elem_of_nil in H.
        -- intros (data' & [= <-] & H). congruence.
      * intros data' [= <-]. do 2 right. by left.
      * intros _. by exists error.
    + split; [|split; [|split]].
      * intros a. rewrite !elem_of_cons.
        intros [H|[H|[H|[H|H]]]]; try discriminate H.
        -- by injection H.
        -- by apply not_elem_of_nil in H.
      * split; [|intros _; eexists; do 3 right; by left].
        intros _. by exists data.
      * intros data' [= <-]. do 2 right. by left.
      * intros Hnone. exfalso. eapply Hnone. do 3 right. by left.
Qed.

Lemma init_sync_reports_witness :
  Tasks.Done (Tasks.Reported "EACCES") ∈ Tasks.init_sync Cases.project "build/mag"
  ∧ Tasks.WriteFile "build/mag/.npmignore" "node_modules"
    ∈ Tasks.init_sync Cases.project "build/mag".
Proof.
  destruct (init_sync_reports_mkdir Cases.project "build/mag")
    as (Hdone & Hiff & Hcopy & _).
  split.
  - destruct (proj2 Hiff) as [a Ha].
    + exists "node_modules". split; reflexivity.
    + rewrite (Hdone a Ha) in Ha. exact Ha.
  - apply (Hcopy "node_modules"). reflexivity.
Defined.

Section Gettext.
Implicit Types (v : JS.value) (l : list string).




End Gettext.


